(** * Session / token lifecycle of [frontend2/src/KeycloakProvider.js]

    A shallow embedding of the React provider component that keeps the
    browser session of the portal: the two [localStorage] entries, the
    component's [useState] cells, the asynchronous calls to the identity
    provider, and the host functions the component relies on
    ([String.prototype.split], [atob], [JSON.parse], property access and
    the numeric coercion of [*]).

    Conventions.
    - A JavaScript string is a Rocq [string]; every character is one code
      unit below 256.  The output of [atob] is exactly such a string.
      Strings produced by [JSON.parse] may hold any UTF-16 code unit
      (through [\uXXXX]) and are lists of code units ([list N]).
    - A JavaScript number is an exact decimal [m * 10^e], [NaN] or an
      infinity; IEEE-754 rounding is not modelled.  For the integral
      epoch-second expiry claims of the identity provider (below 2^53 /
      1000) both agree.
    - An [async] function is split at its [await]: the part before it runs
      inside the event that calls it, the part after it is a continuation
      kept in the state until the response (or the microtask) arrives. *)

From Stdlib Require Import ZArith NArith Ascii String List Bool Lia.
From Stdlib Require Import DecimalString.
From stdpp Require Import base option list gmap strings.

Local Open Scope string_scope.
Local Open Scope list_scope.
Local Open Scope Z_scope.

(** ** Host runtime *)

Module JS.

(** *** Strings *)

Definition chars (s : string) : list ascii := list_ascii_of_string s.
Definition of_chars (l : list ascii) : string := string_of_list_ascii l.

Definition unit_of (c : ascii) : N := N_of_ascii c.
Arguments unit_of c%_char_scope.
Definition units (s : string) : list N := map unit_of (chars s).

(** [s.split(sep)] for a one-character separator: never empty, one more
    piece than there are separators. *)
Fixpoint split (sep : ascii) (s : string) : list string :=
  match s with
  | EmptyString => [EmptyString]
  | String c r =>
      if Ascii.eqb c sep then EmptyString :: split sep r
      else match split sep r with
           | h :: t => String c h :: t
           | [] => [String c EmptyString]
           end
  end.

Definition no_dot (s : string) : bool :=
  forallb (fun c => negb (Ascii.eqb c ".")) (chars s).

(** Exceptions the decoding path can raise. *)
Inductive exn : Type :=
| InvalidCharacterError   (* DOMException thrown by atob *)
| SyntaxError             (* thrown by JSON.parse *)
| TypeError.              (* property read on null, failed ToPrimitive *)

(** A JavaScript value that is either [undefined] or a string, with the
    [ToString] coercion host functions apply to their argument. *)
Definition ToString_opt (v : option string) : string :=
  match v with
  | Some s => s
  | None => "undefined"
  end.

(** *** atob: the forgiving-base64 decoder of the HTML standard *)

(** Tab, line feed, form feed, carriage return, space. *)
Definition is_ascii_whitespace (c : ascii) : bool :=
  let n := unit_of c in
  ((n =? 9) || (n =? 10) || (n =? 12) || (n =? 13) || (n =? unit_of " "))%N.

Definition b64_value (c : ascii) : option N :=
  let n := unit_of c in
  (if (unit_of "A" <=? n) && (n <=? unit_of "Z") then Some (n - unit_of "A")
   else if (unit_of "a" <=? n) && (n <=? unit_of "z")
     then Some (n - unit_of "a" + 26)
   else if (unit_of "0" <=? n) && (n <=? unit_of "9")
     then Some (n - unit_of "0" + 52)
   else if n =? unit_of "+" then Some 62
   else if n =? unit_of "/" then Some 63
   else None)%N.

Definition is_equals (c : ascii) : bool := (unit_of c =? unit_of "=")%N.

(** Remove one or two trailing [=] (only done when the length is a
    multiple of four). *)
Definition strip_padding (l : list ascii) : list ascii :=
  match rev l with
  | a :: b :: r =>
      if is_equals a then (if is_equals b then rev r else rev (b :: r)) else l
  | _ => l
  end.

Fixpoint b64_values (l : list ascii) : option (list N) :=
  match l with
  | [] => Some []
  | c :: r =>
      match b64_value c, b64_values r with
      | Some v, Some vs => Some (v :: vs)
      | _, _ => None
      end
  end.

(** Four sextets give three bytes; a rest of three gives two bytes and a
    rest of two gives one, the surplus bits being dropped. *)
Fixpoint b64_bytes (l : list N) : list N :=
  (match l with
   | a :: b :: c :: d :: r =>
       (a * 4 + b / 16) :: ((b mod 16) * 16 + c / 4) :: ((c mod 4) * 64 + d)
         :: b64_bytes r
   | [a; b; c] => [a * 4 + b / 16; (b mod 16) * 16 + c / 4]
   | [a; b] => [a * 4 + b / 16]
   | _ => []
   end)%N.

Definition atob (s : string) : exn + string :=
  let data := List.filter (fun c => negb (is_ascii_whitespace c)) (chars s) in
  let data := if (length data mod 4 =? 0)%nat then strip_padding data else data in
  if (length data mod 4 =? 1)%nat then inl InvalidCharacterError
  else match b64_values data with
       | None => inl InvalidCharacterError
       | Some vs => inr (of_chars (map ascii_of_N (b64_bytes vs)))
       end.

(** *** Numbers *)

Inductive number : Type :=
| NaN
| Inf (negative : bool)
| Dec (m e : Z).            (* the exact value m * 10^e *)

Definition is_digit (n : N) : bool :=
  ((unit_of "0" <=? n) && (n <=? unit_of "9"))%N.

Fixpoint span_digits (ok : N -> bool) (l : list N) : list N * list N :=
  match l with
  | c :: r =>
      if ok c then let '(ds, rest) := span_digits ok r in (c :: ds, rest)
      else ([], l)
  | [] => ([], [])
  end.

(** Value of a decimal or hexadecimal digit. *)
Definition digit_value (n : N) : Z :=
  (if is_digit n then Z.of_N n - Z.of_N (unit_of "0")
   else if (unit_of "a" <=? n)%N then Z.of_N n - Z.of_N (unit_of "a") + 10
   else Z.of_N n - Z.of_N (unit_of "A") + 10).

(** Value of a digit string in the given radix, most significant first. *)
Definition radix_value (radix : Z) (ds : list N) : Z :=
  fold_left (fun acc d => acc * radix + digit_value d) ds 0.

Definition signed (negative : bool) (z : Z) : Z := if negative then - z else z.

(** An optional exponent part [e|E (+|-)? digits]; [None] when the input
    starts an exponent that is not well formed. *)
Definition exponent_part (l : list N) : option (Z * list N) :=
  match l with
  | c :: r =>
      if ((c =? unit_of "e") || (c =? unit_of "E"))%N then
        let '(neg, r1) :=
          match r with
          | s :: r' =>
              if (s =? unit_of "-")%N then (true, r')
              else if (s =? unit_of "+")%N then (false, r') else (false, r)
          | [] => (false, r)
          end in
        let '(ds, rest) := span_digits is_digit r1 in
        match ds with
        | [] => None
        | _ => Some (signed neg (radix_value 10 ds), rest)
        end
      else Some (0, l)
  | [] => Some (0, [])
  end.

(** The JSON number grammar: an optional minus; an integer part that is 0
    or starts with a non-zero digit; an optional fraction (a dot and at
    least one digit); an optional exponent. *)
Definition json_number (l : list N) : option number :=
  let '(neg, l1) :=
    match l with
    | c :: r => if (c =? unit_of "-")%N then (true, r) else (false, l)
    | [] => (false, l)
    end in
  let '(ip, l2) := span_digits is_digit l1 in
  let int_ok :=
    match ip with
    | [] => false
    | [_] => true
    | d :: _ => negb (d =? unit_of "0")%N
    end in
  if negb int_ok then None
  else
    let frac :=
      match l2 with
      | c :: r =>
          if (c =? unit_of ".")%N then
            let '(fp, l3) := span_digits is_digit r in
            match fp with [] => None | _ => Some (fp, l3) end
          else Some ([], l2)
      | [] => Some ([], l2)
      end in
    match frac with
    | None => None
    | Some (fp, l3) =>
        match exponent_part l3 with
        | Some (ex, []) =>
            Some (Dec (signed neg (radix_value 10 (ip ++ fp)))
                      (ex - Z.of_nat (length fp)))
        | _ => None
        end
    end.

(** *** JSON.parse *)

#[local] Set Warnings "-register-all".

Inductive json : Type :=
| JNull
| JBool (b : bool)
| JNumber (n : number)
| JString (s : list N)
| JArray (elems : list json)
| JObject (members : list (list N * json)).   (* in source order *)

Inductive token : Type :=
| TLBrace | TRBrace | TLBrack | TRBrack | TColon | TComma
| TScalar (v : json)
| TString (s : list N).

Inductive mode : Type :=
| MTop
| MStr (acc : list N)                 (* inside a string; content reversed *)
| MEsc (acc : list N)                 (* just after a backslash *)
| MUni (acc : list N) (k : nat) (v : N)  (* in \u, k hex digits read *)
| MNum (acc : list N)                 (* inside a number; reversed *)
| MLit (rest : list N) (v : json).    (* rest of true / false / null *)

(** Tab, line feed, carriage return, space. *)
Definition is_json_ws (n : N) : bool :=
  ((n =? 9) || (n =? 10) || (n =? 13) || (n =? unit_of " "))%N.

Definition is_number_char (n : N) : bool :=
  (is_digit n || (n =? unit_of "-") || (n =? unit_of "+") || (n =? unit_of ".")
   || (n =? unit_of "e") || (n =? unit_of "E"))%N.

Definition hex_value (n : N) : option N :=
  (if is_digit n then Some (n - unit_of "0")
   else if (unit_of "a" <=? n) && (n <=? unit_of "f")
     then Some (n - unit_of "a" + 10)
   else if (unit_of "A" <=? n) && (n <=? unit_of "F")
     then Some (n - unit_of "A" + 10)
   else None)%N.

(** The code units of the double quote and of the backslash. *)
Definition quote : N := 34.
Definition backslash : N := 92.

Definition top_char (c : N) : option (mode * list token) :=
  (if is_json_ws c then Some (MTop, [])
   else if c =? unit_of "{" then Some (MTop, [TLBrace])
   else if c =? unit_of "}" then Some (MTop, [TRBrace])
   else if c =? unit_of "[" then Some (MTop, [TLBrack])
   else if c =? unit_of "]" then Some (MTop, [TRBrack])
   else if c =? unit_of ":" then Some (MTop, [TColon])
   else if c =? unit_of "," then Some (MTop, [TComma])
   else if c =? quote then Some (MStr [], [])
   else if c =? unit_of "t" then Some (MLit (units "rue") (JBool true), [])
   else if c =? unit_of "f" then Some (MLit (units "alse") (JBool false), [])
   else if c =? unit_of "n" then Some (MLit (units "ull") JNull, [])
   else if is_digit c || (c =? unit_of "-") then Some (MNum [c], [])
   else None)%N.

Definition escape_char (c : N) : option N :=
  (if (c =? quote) || (c =? backslash) || (c =? unit_of "/") then Some c
   else if c =? unit_of "b" then Some 8
   else if c =? unit_of "f" then Some 12
   else if c =? unit_of "n" then Some 10
   else if c =? unit_of "r" then Some 13
   else if c =? unit_of "t" then Some 9
   else None)%N.

Definition lex_step (m : mode) (c : N) : option (mode * list token) :=
  match m with
  | MTop => top_char c
  | MStr acc =>
      (if c =? quote then Some (MTop, [TString (rev acc)])
       else if c =? backslash then Some (MEsc acc, [])
       else if c <? 32 then None
       else Some (MStr (c :: acc), []))%N
  | MEsc acc =>
      if (c =? unit_of "u")%N then Some (MUni acc 0 0%N, [])
      else match escape_char c with
           | Some u => Some (MStr (u :: acc), [])
           | None => None
           end
  | MUni acc k v =>
      match hex_value c with
      | None => None
      | Some h =>
          let v' := (v * 16 + h)%N in
          if (k =? 3)%nat then Some (MStr (v' :: acc), [])
          else Some (MUni acc (S k) v', [])
      end
  | MNum acc =>
      if is_number_char c then Some (MNum (c :: acc), [])
      else match json_number (rev acc), top_char c with
           | Some n, Some (m', ts) => Some (m', TScalar (JNumber n) :: ts)
           | _, _ => None
           end
  | MLit rest v =>
      match rest with
      | x :: rest' =>
          if (c =? x)%N then
            match rest' with
            | [] => Some (MTop, [TScalar v])
            | _ => Some (MLit rest' v, [])
            end
          else None
      | [] => None
      end
  end.

Fixpoint lex (m : mode) (cs : list N) : option (list token) :=
  match cs with
  | [] =>
      match m with
      | MTop => Some []
      | MNum acc =>
          match json_number (rev acc) with
          | Some n => Some [TScalar (JNumber n)]
          | None => None
          end
      | _ => None
      end
  | c :: r =>
      match lex_step m c with
      | None => None
      | Some (m', ts) =>
          match lex m' r with
          | Some ts' => Some (ts ++ ts')
          | None => None
          end
      end
  end.

(** The parser is a pushdown automaton over the tokens. *)
Inductive frame : Type :=
| FArr (acc : list json)                          (* elements so far, reversed *)
| FObj (acc : list (list N * json)) (key : list N). (* members so far, key being read *)

Inductive pstate : Type :=
| PValue (stk : list frame)                        (* a value must follow *)
| PArrFirst (stk : list frame)                     (* after [ *)
| PArrNext (acc : list json) (stk : list frame)    (* after an element *)
| PObjFirst (stk : list frame)                     (* after the opening brace *)
| PObjKey (acc : list (list N * json)) (stk : list frame)  (* after , in an object *)
| PColon (acc : list (list N * json)) (key : list N) (stk : list frame)
| PObjNext (acc : list (list N * json)) (stk : list frame) (* after a member *)
| PEnd (v : json).

Definition push_value (v : json) (stk : list frame) : pstate :=
  match stk with
  | [] => PEnd v
  | FArr acc :: s => PArrNext (v :: acc) s
  | FObj acc k :: s => PObjNext ((k, v) :: acc) s
  end.

Definition start_value (t : token) (stk : list frame) : option pstate :=
  match t with
  | TScalar v => Some (push_value v stk)
  | TString s => Some (push_value (JString s) stk)
  | TLBrack => Some (PArrFirst stk)
  | TLBrace => Some (PObjFirst stk)
  | _ => None
  end.

Definition parse_step (p : pstate) (t : token) : option pstate :=
  match p, t with
  | PValue stk, _ => start_value t stk
  | PArrFirst stk, TRBrack => Some (push_value (JArray []) stk)
  | PArrFirst stk, _ => start_value t (FArr [] :: stk)
  | PArrNext acc stk, TComma => Some (PValue (FArr acc :: stk))
  | PArrNext acc stk, TRBrack => Some (push_value (JArray (rev acc)) stk)
  | PObjFirst stk, TRBrace => Some (push_value (JObject []) stk)
  | PObjFirst stk, TString k => Some (PColon [] k stk)
  | PObjKey acc stk, TString k => Some (PColon acc k stk)
  | PColon acc k stk, TColon => Some (PValue (FObj acc k :: stk))
  | PObjNext acc stk, TComma => Some (PObjKey acc stk)
  | PObjNext acc stk, TRBrace => Some (push_value (JObject (rev acc)) stk)
  | _, _ => None
  end.

Fixpoint parse_tokens (p : pstate) (ts : list token) : option json :=
  match ts with
  | [] => match p with PEnd v => Some v | _ => None end
  | t :: r =>
      match parse_step p t with
      | Some p' => parse_tokens p' r
      | None => None
      end
  end.

Definition JSON_parse (text : string) : exn + json :=
  match lex MTop (units text) with
  | None => inl SyntaxError
  | Some ts =>
      match parse_tokens (PValue []) ts with
      | Some v => inr v
      | None => inl SyntaxError
      end
  end.

(** *** Property read and numeric coercion *)

Fixpoint units_eqb (a b : list N) : bool :=
  match a, b with
  | [], [] => true
  | x :: a', y :: b' => (x =? y)%N && units_eqb a' b'
  | _, _ => false
  end.

(** Own property of a parsed object; of duplicate keys the last one wins. *)
Fixpoint lookup_member (k : list N) (ms : list (list N * json)) : option json :=
  match ms with
  | [] => None
  | (k', v) :: r =>
      match lookup_member k r with
      | Some v' => Some v'
      | None => if units_eqb k k' then Some v else None
      end
  end.

(** [v.exp]: a [TypeError] on [null]; the own property of an object; and
    [undefined] ([None]) otherwise, no prototype of a parsed value having
    a property of that name. *)
Definition prop_exp (v : json) : exn + option json :=
  match v with
  | JNull => inl TypeError
  | JObject ms => inr (lookup_member (units "exp") ms)
  | _ => inr None
  end.

Definition has_own (k : list N) (ms : list (list N * json)) : bool :=
  existsb (fun kv => units_eqb k (fst kv)) ms.

(** [ToPrimitive] of a parsed value raises a [TypeError] exactly when it
    meets an object whose own [toString] shadows the inherited method (a
    parsed value is never callable); arrays are joined element-wise. *)
Fixpoint to_primitive_throws (v : json) : bool :=
  match v with
  | JObject ms => has_own (units "toString") ms
  | JArray l => existsb to_primitive_throws l
  | _ => false
  end.

(** [StrWhiteSpaceChar]: the white space and line terminator code
    units of the language. *)
Definition is_str_whitespace (n : N) : bool :=
  ((n =? 9) || (n =? 10) || (n =? 11) || (n =? 12) || (n =? 13) || (n =? 32)
   || (n =? 160) || (n =? 5760) || ((8192 <=? n) && (n <=? 8202))
   || (n =? 8232) || (n =? 8233) || (n =? 8239) || (n =? 8287)
   || (n =? 12288) || (n =? 65279))%N.

Fixpoint drop_ws (l : list N) : list N :=
  match l with
  | c :: r => if is_str_whitespace c then drop_ws r else l
  | [] => []
  end.

Definition trim (l : list N) : list N := rev (drop_ws (rev (drop_ws l))).

Definition is_hex_digit (n : N) : bool :=
  match hex_value n with Some _ => true | None => false end.
Definition is_octal_digit (n : N) : bool :=
  ((unit_of "0" <=? n) && (n <=? unit_of "7"))%N.
Definition is_binary_digit (n : N) : bool :=
  ((n =? unit_of "0") || (n =? unit_of "1"))%N.

(** A literal made only of digits of the radix, and at least one. *)
Definition radix_literal (ok : N -> bool) (radix : Z) (ds : list N) : number :=
  match ds with
  | [] => NaN
  | _ => if forallb ok ds then Dec (radix_value radix ds) 0 else NaN
  end.

(** [StrUnsignedDecimalLiteral]: [Infinity], or digits with an optional
    fraction and exponent, where one of the two digit runs may be empty. *)
Definition unsigned_decimal (neg : bool) (l : list N) : number :=
  if units_eqb l (units "Infinity") then Inf neg
  else
    let '(ip, l2) := span_digits is_digit l in
    let '(fp, l3) :=
      match l2 with
      | c :: r =>
          if (c =? unit_of ".")%N then span_digits is_digit r else ([], l2)
      | [] => ([], l2)
      end in
    match ip, fp with
    | [], [] => NaN
    | _, _ =>
        match exponent_part l3 with
        | Some (ex, []) =>
            Dec (signed neg (radix_value 10 (ip ++ fp))) (ex - Z.of_nat (length fp))
        | _ => NaN
        end
    end.

(** [StringToNumber]. *)
Definition string_to_number (s : list N) : number :=
  match trim s with
  | [] => Dec 0 0
  | c :: r =>
      let body := c :: r in
      match r with
      | x :: ds =>
          if ((c =? unit_of "0") && ((x =? unit_of "x") || (x =? unit_of "X")))%N
          then radix_literal is_hex_digit 16 ds
          else if ((c =? unit_of "0") && ((x =? unit_of "o") || (x =? unit_of "O")))%N
          then radix_literal is_octal_digit 8 ds
          else if ((c =? unit_of "0") && ((x =? unit_of "b") || (x =? unit_of "B")))%N
          then radix_literal is_binary_digit 2 ds
          else if (c =? unit_of "-")%N then unsigned_decimal true r
          else if (c =? unit_of "+")%N then unsigned_decimal false r
          else unsigned_decimal false body
      | [] => unsigned_decimal false body
      end
  end.

(** [ToNumber] of a parsed value whose [ToPrimitive] does not raise.  An
    array is first joined with commas: the empty array gives the empty
    string, a one-element array the string of its element ([null] giving
    the empty string), and a longer one a string with a comma. *)
Fixpoint to_number (v : json) : number :=
  match v with
  | JNull => Dec 0 0
  | JBool b => Dec (if b then 1 else 0) 0
  | JNumber n => n
  | JString s => string_to_number s
  | JObject _ => NaN
  | JArray [] => Dec 0 0
  | JArray [x] =>
      match x with
      | JBool _ => NaN
      | _ => to_number x
      end
  | JArray _ => NaN
  end.

(** [ToNumber] of a property that may be [undefined]. *)
Definition ToNumber (v : option json) : exn + number :=
  match v with
  | None => inr NaN
  | Some j => if to_primitive_throws j then inl TypeError else inr (to_number j)
  end.

(** *** Arithmetic and comparison on numbers *)

Definition num_mul (a b : number) : number :=
  match a, b with
  | NaN, _ | _, NaN => NaN
  | Inf s, Inf t => Inf (xorb s t)
  | Inf s, Dec m _ | Dec m _, Inf s =>
      if m =? 0 then NaN else Inf (xorb s (m <? 0))
  | Dec m1 e1, Dec m2 e2 => Dec (m1 * m2) (e1 + e2)
  end.

(** Mantissa of [m * 10^e] at the smaller exponent [e0 <= e]. *)
Definition scale (m e e0 : Z) : Z := m * 10 ^ (e - e0).

Definition num_sub (a b : number) : number :=
  match a, b with
  | NaN, _ | _, NaN => NaN
  | Inf s, Inf t => if Bool.eqb s t then NaN else Inf s
  | Inf s, Dec _ _ => Inf s
  | Dec _ _, Inf s => Inf (negb s)
  | Dec m1 e1, Dec m2 e2 =>
      let e0 := Z.min e1 e2 in Dec (scale m1 e1 e0 - scale m2 e2 e0) e0
  end.

Definition num_ltb (a b : number) : bool :=
  match a, b with
  | NaN, _ | _, NaN => false
  | Inf s, Inf t => s && negb t
  | Inf s, Dec _ _ => s
  | Dec _ _, Inf s => negb s
  | Dec m1 e1, Dec m2 e2 =>
      let e0 := Z.min e1 e2 in scale m1 e1 e0 <? scale m2 e2 e0
  end.

Definition of_int (z : Z) : number := Dec z 0.

(** A monad for code that may throw. *)
Definition bind {A B} (x : exn + A) (f : A -> exn + B) : exn + B :=
  match x with
  | inl e => inl e
  | inr a => f a
  end.

End JS.

Notation "'let!' x ':=' c 'in' k" := (JS.bind c (fun x => k))
  (at level 10, x name, c at level 100, k at level 200).

(** ** The provider component *)

Module Provider.

Import JS.

Definition KEYCLOAK_URL : string := "http://192.168.245.130:8080/".
Definition REALM : string := "master".
Definition CLIENT_ID : string := "ent-frontend".

Definition token_endpoint : string :=
  (KEYCLOAK_URL ++ "realms/" ++ REALM ++ "/protocol/openid-connect/token")%string.

(** *** Requests to the identity provider and their outcomes *)

Inductive grant : Type :=
| PasswordGrant (username password : string)
| RefreshGrant (refresh_token : string).

Record request : Type := Request {
  url : string;
  client_id : string;
  grant_type : grant
}.

(** [axios.post] either fulfils with the two tokens of the response body
    or rejects: no answer at all, or an answer with an error status. *)
Inductive failure : Type :=
| NetworkError
| HttpError (status : Z) (error_code : string).

Inductive response : Type :=
| Fulfilled (access_token refresh_token : string)
| Rejected (err : failure).

(** The [async] function suspended on a request. *)
Inductive cont : Type :=
| KLogin            (* login, line 95 *)
| KRefreshToken     (* refreshToken, line 60, awaited by checkTokenValidity *)
| KUpdateToken.     (* keycloak.updateToken, line 146 *)

(** The promise an [async] function hands back when it returns or
    suspends. *)
Inductive promise : Type :=
| Resolved (b : bool)
| Pending.

(** A continuation queued as a microtask: [checkTokenValidity] after its
    [await refreshToken(...)] (line 41). *)
Inductive task : Type :=
| TResume (success : bool).

(** A call of one of the [useState] setters. *)
Inductive setter : Type :=
| SetIsAuthenticated (b : bool)
| SetToken (v : option string)
| SetUsername (v : string)
| SetPassword (v : string)
| SetError (v : string)
| SetLoading (b : bool).

Record state : Type := State {
  localStorage : gmap string string;
  isAuthenticated : bool;
  token : option string;
  username : string;
  password : string;
  error : string;
  loading : bool;
  inflight : list (request * cont);   (* requests not yet answered *)
  microtasks : list task;
  posted : list request;              (* every request sent, oldest first *)
  calls : list setter                 (* every setter call, oldest first *)
}.

(** The component before its first effect runs (lines 14-19). *)
Definition init (ls : gmap string string) : state :=
  State ls false None "" "" "" false [] [] [] [].

(** *** Primitive effects *)

Definition getItem (k : string) (s : state) : option string :=
  localStorage s !! k.

Definition with_storage (f : gmap string string -> gmap string string)
    (s : state) : state :=
  State (f (localStorage s)) (isAuthenticated s) (token s) (username s)
        (password s) (error s) (loading s) (inflight s) (microtasks s)
        (posted s) (calls s).

Definition setItem (k v : string) : state -> state := with_storage (insert k v).
Definition removeItem (k : string) : state -> state := with_storage (delete k).

Definition setIsAuthenticated (b : bool) (s : state) : state :=
  State (localStorage s) b (token s) (username s) (password s) (error s)
        (loading s) (inflight s) (microtasks s) (posted s)
        (calls s ++ [SetIsAuthenticated b]).

Definition setToken (v : option string) (s : state) : state :=
  State (localStorage s) (isAuthenticated s) v (username s) (password s)
        (error s) (loading s) (inflight s) (microtasks s) (posted s)
        (calls s ++ [SetToken v]).

Definition setUsername (v : string) (s : state) : state :=
  State (localStorage s) (isAuthenticated s) (token s) v (password s)
        (error s) (loading s) (inflight s) (microtasks s) (posted s)
        (calls s ++ [SetUsername v]).

Definition setPassword (v : string) (s : state) : state :=
  State (localStorage s) (isAuthenticated s) (token s) (username s) v
        (error s) (loading s) (inflight s) (microtasks s) (posted s)
        (calls s ++ [SetPassword v]).

Definition setError (v : string) (s : state) : state :=
  State (localStorage s) (isAuthenticated s) (token s) (username s)
        (password s) v (loading s) (inflight s) (microtasks s) (posted s)
        (calls s ++ [SetError v]).

Definition setLoading (b : bool) (s : state) : state :=
  State (localStorage s) (isAuthenticated s) (token s) (username s)
        (password s) (error s) b (inflight s) (microtasks s) (posted s)
        (calls s ++ [SetLoading b]).

(** [axios.post(...)]: the request leaves and its caller suspends. *)
Definition post (r : request) (k : cont) (s : state) : state :=
  State (localStorage s) (isAuthenticated s) (token s) (username s)
        (password s) (error s) (loading s) (inflight s ++ [(r, k)])
        (microtasks s) (posted s ++ [r]) (calls s).

Definition enqueue (t : task) (s : state) : state :=
  State (localStorage s) (isAuthenticated s) (token s) (username s)
        (password s) (error s) (loading s) (inflight s)
        (microtasks s ++ [t]) (posted s) (calls s).

Definition with_inflight (l : list (request * cont)) (s : state) : state :=
  State (localStorage s) (isAuthenticated s) (token s) (username s)
        (password s) (error s) (loading s) l (microtasks s) (posted s)
        (calls s).

Definition with_microtasks (l : list task) (s : state) : state :=
  State (localStorage s) (isAuthenticated s) (token s) (username s)
        (password s) (error s) (loading s) (inflight s) l (posted s)
        (calls s).

(** Statements in sequence. *)
Definition seq (stmts : list (state -> state)) (s : state) : state :=
  fold_left (fun acc f => f acc) stmts s.

(** Truthiness of a value that is [null] or a string. *)
Definition truthy (v : option string) : bool :=
  match v with
  | Some s => negb (String.eqb s "")
  | None => false
  end.

Definition password_request (u p : string) : request :=
  Request token_endpoint CLIENT_ID (PasswordGrant u p).

Definition refresh_request (r : string) : request :=
  Request token_endpoint CLIENT_ID (RefreshGrant r).

(** *** The credential store: the two entries of [localStorage] *)

(** Written after every successful grant (lines 75-76, 112-113 and
    161-162). *)
Definition save (access_token refresh_token : string) : state -> state :=
  seq [ setItem "token" access_token;
        setItem "refresh_token" refresh_token ].

(** Read when the page starts (lines 23-24). *)
Definition load (s : state) : option string * option string :=
  (getItem "token" s, getItem "refresh_token" s).

(** What follows a successful grant in all three places: the store is
    written, then [setToken] is called (lines 74-77, 111-114, 160-163). *)
Definition store_tokens (access_token refresh_token : string) : state -> state :=
  seq [ save access_token refresh_token;
        setToken (Some access_token) ].

(** *** logout (lines 126-131) *)

Definition logout : state -> state :=
  seq [ removeItem "token";
        removeItem "refresh_token";
        setToken None;
        setIsAuthenticated false ].

(** *** refreshToken (lines 56-83) *)

Definition refreshToken (refreshTokenValue : option string) (s : state)
    : state * promise :=
  if negb (truthy refreshTokenValue) then (s, Resolved false)
  else (post (refresh_request (ToString_opt refreshTokenValue)) KRefreshToken s,
        Pending).

Definition refreshToken_resume (r : response) (s : state) : state * bool :=
  match r with
  | Fulfilled access_token refresh_token =>
      (store_tokens access_token refresh_token s, true)
  | Rejected _ => (s, false)
  end.

(** *** checkTokenValidity (lines 31-49) *)

(** Lines 34-35: the payload of the token and its expiry in
    milliseconds. *)
Definition tokenData (storedToken : string) : exn + json :=
  let! payload := atob (ToString_opt (nth_error (split "." storedToken) 1)) in
  JSON_parse payload.

Definition expiryTime (storedToken : string) : exn + number :=
  let! data := tokenData storedToken in
  let! exp := prop_exp data in
  let! n := ToNumber exp in
  inr (num_mul n (of_int 1000)).

(** Line 39. *)
Definition expires_soon (expiry : number) (currentTime : Z) : bool :=
  num_ltb (num_sub expiry (of_int currentTime)) (of_int 300000).

(** [await p]: the rest of the function runs in a microtask once [p] is
    resolved. *)
Definition await (p : promise) (s : state) : state :=
  match p with
  | Resolved b => enqueue (TResume b) s
  | Pending => s
  end.

Definition checkTokenValidity_resume (success : bool) (s : state) : state :=
  if negb success then logout s else s.

Definition checkTokenValidity (storedToken : string)
    (storedRefreshToken : option string) (currentTime : Z) (s : state) : state :=
  match expiryTime storedToken with
  | inr expiry =>
      if expires_soon expiry currentTime then
        let '(s', p) := refreshToken storedRefreshToken s in await p s'
      else s
  | inl _ => logout s
  end.

(** *** The effect run once after the first render (lines 22-53) *)

Definition mount (currentTime : Z) (s : state) : state :=
  let storedToken := getItem "token" s in
  let storedRefreshToken := getItem "refresh_token" s in
  if truthy storedToken then
    checkTokenValidity (ToString_opt storedToken) storedRefreshToken currentTime
      (seq [ setToken storedToken; setIsAuthenticated true ] s)
  else s.

(** *** login (lines 86-123); [username] and [password] are the values
    of the render that created the closure. *)

Definition login_error_message : string :=
  String "201"%char ("chec de connexion. V"
    ++ String "233"%char "rifiez vos identifiants.")%string.

Definition login (u p : string) : state -> state :=
  seq [ setLoading true;
        setError "";
        post (password_request u p) KLogin ].

Definition login_resume (r : response) : state -> state :=
  match r with
  | Fulfilled access_token refresh_token =>
      seq [ store_tokens access_token refresh_token;
            setIsAuthenticated true;
            setLoading false ]
  | Rejected _ =>
      seq [ setError login_error_message;
            setLoading false ]
  end.

(** *** keycloak.updateToken (lines 140-170) *)

Definition updateToken {A : Type} (minValidity : A) (s : state)
    : state * promise :=
  let refreshTokenValue := getItem "refresh_token" s in
  if negb (truthy refreshTokenValue) then (s, Resolved false)
  else (post (refresh_request (ToString_opt refreshTokenValue)) KUpdateToken s,
        Pending).

Definition updateToken_resume (r : response) (s : state) : state * bool :=
  match r with
  | Fulfilled access_token refresh_token =>
      (store_tokens access_token refresh_token s, true)
  | Rejected _ => (logout s, false)
  end.

(** *** The object handed to the children (lines 134-171, 225) *)

Record Keycloak : Type := {
  kc_token : option string;
  kc_refreshToken : option string;
  kc_authenticated : bool;
  kc_login : state -> state;
  kc_logout : state -> state;
  kc_updateToken : Z -> state -> state * promise
}.

Definition keycloak (s : state) : Keycloak :=
  {| kc_token := token s;
     kc_refreshToken := getItem "refresh_token" s;
     kc_authenticated := isAuthenticated s;
     kc_login := login (username s) (password s);
     kc_logout := logout;
     kc_updateToken := updateToken |}.

(** *** Events

    The provider renders the login form while [isAuthenticated] is false
    (lines 174-222) and its children otherwise (lines 224-228).  The form
    offers the two inputs and the submit button, which is disabled while
    [loading]; both inputs are [required].  The child [App] starts an
    interval of thirty seconds that calls [keycloak.updateToken(60)] and
    shows a link that calls [keycloak.logout()]; the other children only
    read [keycloak.token] and [keycloak.authenticated].  The identity
    provider may answer any request in flight, and a queued microtask runs
    before anything else. *)

Inductive event : Type :=
| Change_username (v : string)
| Change_password (v : string)
| Submit
| Tick
| Click_logout
| Response (i : nat) (r : response)
| Microtask.

Definition deliver (k : cont) (r : response) (s : state) : state :=
  match k with
  | KLogin => login_resume r s
  | KRefreshToken =>
      let '(s', success) := refreshToken_resume r s in
      enqueue (TResume success) s'
  | KUpdateToken => fst (updateToken_resume r s)
  end.

Definition run_task (t : task) (s : state) : state :=
  match t with
  | TResume success => checkTokenValidity_resume success s
  end.

Definition step (s : state) (e : event) : option state :=
  match microtasks s with
  | t :: rest =>
      match e with
      | Microtask => Some (run_task t (with_microtasks rest s))
      | _ => None
      end
  | [] =>
      match e with
      | Change_username v =>
          if isAuthenticated s then None else Some (setUsername v s)
      | Change_password v =>
          if isAuthenticated s then None else Some (setPassword v s)
      | Submit =>
          if negb (isAuthenticated s) && negb (loading s)
             && negb (String.eqb (username s) "")
             && negb (String.eqb (password s) "")
          then Some (login (username s) (password s) s)
          else None
      | Tick =>
          if isAuthenticated s
          then Some (fst (kc_updateToken (keycloak s) 60 s))
          else None
      | Click_logout =>
          if isAuthenticated s then Some (kc_logout (keycloak s) s) else None
      | Response i r =>
          match inflight s !! i with
          | Some (_, k) =>
              Some (deliver k r (with_inflight (delete i (inflight s)) s))
          | None => None
          end
      | Microtask => None
      end
  end.

Fixpoint run (s : state) (es : list event) : option state :=
  match es with
  | [] => Some s
  | e :: rest =>
      match step s e with
      | Some s' => run s' rest
      | None => None
      end
  end.

(** The page is loaded with the given storage content at the given time. *)
Definition boot (ls : gmap string string) (currentTime : Z) : state :=
  mount currentTime (init ls).

Definition reachable (s : state) : Prop :=
  exists ls currentTime es, run (boot ls currentTime) es = Some s.

(** *** Observations *)

Definition is_refresh (r : request) : bool :=
  match grant_type r with
  | RefreshGrant _ => true
  | PasswordGrant _ _ => false
  end.

(** Refresh requests sent and not yet answered. *)
Definition renewals_in_flight (s : state) : nat :=
  length (List.filter (fun rk => is_refresh (fst rk)) (inflight s)).

Definition is_renewal (k : cont) : bool :=
  match k with
  | KLogin => false
  | KRefreshToken | KUpdateToken => true
  end.

(** The events that carry a rejected request to the end of its handler:
    the answer itself and, for the start-up check, the microtask that
    resumes [checkTokenValidity]. *)
Definition rejection (k : cont) (i : nat) (f : failure) : list event :=
  match k with
  | KRefreshToken => [Response i (Rejected f); Microtask]
  | KLogin | KUpdateToken => [Response i (Rejected f)]
  end.

(** Password grants sent and not yet answered. *)
Definition pending_logins (s : state) : nat :=
  length (List.filter (fun rk => negb (is_renewal (snd rk))) (inflight s)).

(** What holds of the login form in every reachable state: at most one
    password grant is in flight, and while it is the form is shown with
    its button disabled. *)
Definition form_invariant (s : state) : Prop :=
  (pending_logins s <= 1)%nat
  /\ (pending_logins s = 1%nat -> isAuthenticated s = false /\ loading s = true).

(** The credential the children can read: they are rendered only while
    [isAuthenticated], and then get [token] and the stored refresh token
    through the [keycloak] object. *)
Definition exposed (s : state) : option (string * option string) :=
  if isAuthenticated s then
    match token s with
    | Some t => Some (t, getItem "refresh_token" s)
    | None => None
    end
  else None.

(** The session as a collaborator sees it. *)
Definition logged_out (s : state) : Prop :=
  isAuthenticated s = false /\ token s = None.

(** The two persisted entries (section 6 of the specification). *)
Definition store_empty (s : state) : Prop :=
  getItem "token" s = None /\ getItem "refresh_token" s = None.

(** *** Further observations on the session *)

(** A token held in memory is the one stored under [token]. *)
Definition token_persisted (s : state) : Prop :=
  forall t, token s = Some t -> getItem "token" s = Some t.

Definition session_invariant (s : state) : Prop :=
  token_persisted s /\ (isAuthenticated s = true -> token s <> None).

(** What every request of the component looks like: it goes to the token
    endpoint of the realm with the client id of the front end, a password
    grant carries a name and a password, and a refresh grant a refresh
    token, none of them empty. *)
Definition well_formed (r : request) : Prop :=
  url r = token_endpoint /\ client_id r = CLIENT_ID
  /\ match grant_type r with
     | PasswordGrant u p => u <> "" /\ p <> ""
     | RefreshGrant t => t <> ""
     end.

(** Two storage contents that agree on every key but the two of the
    component. *)
Definition same_elsewhere (m1 m2 : gmap string string) : Prop :=
  forall k, k <> "token" -> k <> "refresh_token" -> m1 !! k = m2 !! k.

(** While a password grant is in flight no error message is shown. *)
Definition login_invariant (s : state) : Prop :=
  pending_logins s = 1%nat -> error s = "".

(** The events that carry a fulfilled request to the end of its handler
    (compare [rejection]). *)
Definition fulfilment (k : cont) (i : nat) (access refresh : string)
    : list event :=
  match k with
  | KRefreshToken => [Response i (Fulfilled access refresh); Microtask]
  | KLogin | KUpdateToken => [Response i (Fulfilled access refresh)]
  end.

(** The primitive effects every step is made of, each with what the
    code establishes before it calls it: [setToken] with a string is
    called with the string just stored or read, [setIsAuthenticated(true)]
    follows a [setToken] with a string, and a request is posted in one of
    the shapes of [well_formed]. *)
Inductive effect_of : state -> state -> Prop :=
| eff_refl s : effect_of s s
| eff_trans s1 s2 s3 : effect_of s1 s2 -> effect_of s2 s3 -> effect_of s1 s3
| eff_username v s : effect_of s (setUsername v s)
| eff_password v s : effect_of s (setPassword v s)
| eff_error v s : effect_of s (setError v s)
| eff_loading b s : effect_of s (setLoading b s)
| eff_post r k s : well_formed r -> effect_of s (post r k s)
| eff_enqueue t s : effect_of s (enqueue t s)
| eff_inflight l s : effect_of s (with_inflight l s)
| eff_microtasks l s : effect_of s (with_microtasks l s)
| eff_store a r s : effect_of s (store_tokens a r s)
| eff_token t s :
    getItem "token" s = Some t -> effect_of s (setToken (Some t) s)
| eff_authenticated s :
    token s <> None -> effect_of s (setIsAuthenticated true s)
| eff_logout s : effect_of s (logout s).

(** An event of the login form's two inputs. *)
Definition is_typing (e : event) : bool :=
  match e with
  | Change_username _ | Change_password _ => true
  | _ => false
  end.

End Provider.

(** ** String methods used by the pages *)

Module Text.

Import JS.

(** White space for [String.prototype.trim], on code units below 256. *)
Definition is_space (c : ascii) : bool := is_str_whitespace (unit_of c).

Fixpoint trimStart (l : list ascii) : list ascii :=
  match l with
  | c :: r => if is_space c then trimStart r else l
  | [] => []
  end.

(** [s.trim()]. *)
Definition trim (s : string) : string :=
  of_chars (rev (trimStart (rev (trimStart (chars s))))).

(** [hay.includes(needle)]. *)
Fixpoint includes (needle hay : string) : bool :=
  if String.prefix needle hay then true
  else match hay with
       | EmptyString => false
       | String _ r => includes needle r
       end.

(** The double quote as a string. *)
Definition dq : string := String "034"%char EmptyString.

End Text.

(** ** The page [App] (the React component in [docker-compose2.yml]) *)

Module App.

Import JS Text.

Definition UPLOAD_API_URL : string := "http://192.168.245.130:5001/api".
Definition DOWNLOAD_API_URL : string := "http://192.168.245.130:5002/api".
Definition USER_API_URL : string := "http://192.168.245.130:5003/api".

(** The file picked in the file input. *)
Record File : Type := { name : string; content : string }.

Inductive part : Type :=
| FilePart (f : File)
| TextPart (v : string).

Inductive request : Type :=
| PostUpload (form : list (string * part)) (authorization : string)
| GetFiles (authorization : string)
| GetUserRole (authorization : string).

Definition url_of (r : request) : string :=
  match r with
  | PostUpload _ _ => (UPLOAD_API_URL ++ "/upload")%string
  | GetFiles _ => (DOWNLOAD_API_URL ++ "/files")%string
  | GetUserRole _ => (USER_API_URL ++ "/users/me")%string
  end.

(** What the handlers read of a rejection: [err.response?.data?.error],
    which the services send as a string, and [err.message]. *)
Record axios_error : Type := {
  response_error : option string;
  message : string
}.

Inductive response : Type :=
| Fulfilled (data : json)
| Rejected (err : axios_error).

(** The [async] function suspended on a request, with what its closure
    holds of the render it was created in: the file picked and the token
    of the [keycloak] object. *)
Inductive cont : Type :=
| KUpload (f : File) (token : option string)
| KFiles
| KUserRole.

Record state : Type := State {
  selectedFile : option File;
  uploadStatus : string;
  fileList : json;
  loading : bool;
  error : string;
  customFileName : string;
  fileDescription : string;
  activeTab : string;
  userRole : option json;    (* [None] is [undefined] *)
  inflight : list (request * cont)
}.

(** The initial values of the [useState] cells (lines 362-370). *)
Definition init : state :=
  State None "" (JArray []) false "" "" "" "files" (Some JNull) [].

Definition setSelectedFile (v : option File) (s : state) : state :=
  State v (uploadStatus s) (fileList s) (loading s) (error s)
        (customFileName s) (fileDescription s) (activeTab s) (userRole s)
        (inflight s).

Definition setUploadStatus (v : string) (s : state) : state :=
  State (selectedFile s) v (fileList s) (loading s) (error s)
        (customFileName s) (fileDescription s) (activeTab s) (userRole s)
        (inflight s).

Definition setFileList (v : json) (s : state) : state :=
  State (selectedFile s) (uploadStatus s) v (loading s) (error s)
        (customFileName s) (fileDescription s) (activeTab s) (userRole s)
        (inflight s).

Definition setLoading (b : bool) (s : state) : state :=
  State (selectedFile s) (uploadStatus s) (fileList s) b (error s)
        (customFileName s) (fileDescription s) (activeTab s) (userRole s)
        (inflight s).

Definition setError (v : string) (s : state) : state :=
  State (selectedFile s) (uploadStatus s) (fileList s) (loading s) v
        (customFileName s) (fileDescription s) (activeTab s) (userRole s)
        (inflight s).

Definition setCustomFileName (v : string) (s : state) : state :=
  State (selectedFile s) (uploadStatus s) (fileList s) (loading s) (error s)
        v (fileDescription s) (activeTab s) (userRole s) (inflight s).

Definition setFileDescription (v : string) (s : state) : state :=
  State (selectedFile s) (uploadStatus s) (fileList s) (loading s) (error s)
        (customFileName s) v (activeTab s) (userRole s) (inflight s).

Definition setActiveTab (v : string) (s : state) : state :=
  State (selectedFile s) (uploadStatus s) (fileList s) (loading s) (error s)
        (customFileName s) (fileDescription s) v (userRole s) (inflight s).

Definition setUserRole (v : option json) (s : state) : state :=
  State (selectedFile s) (uploadStatus s) (fileList s) (loading s) (error s)
        (customFileName s) (fileDescription s) (activeTab s) v (inflight s).

Definition send (r : request) (k : cont) (s : state) : state :=
  State (selectedFile s) (uploadStatus s) (fileList s) (loading s) (error s)
        (customFileName s) (fileDescription s) (activeTab s) (userRole s)
        (inflight s ++ [(r, k)]).

Definition seq (stmts : list (state -> state)) (s : state) : state :=
  fold_left (fun acc f => f acc) stmts s.

(** The header built by the template [Bearer ${keycloak?.token}]. *)
Definition bearer (token : option string) : string :=
  ("Bearer " ++ match token with Some t => t | None => "null" end)%string.

(** Truthiness of a parsed value. *)
Definition truthy (v : json) : bool :=
  match v with
  | JNull => false
  | JBool b => b
  | JNumber NaN => false
  | JNumber (Inf _) => true
  | JNumber (Dec m _) => negb (m =? 0)
  | JString s => match s with [] => false | _ => true end
  | JArray _ | JObject _ => true
  end.

(** [v.k] for a parsed value and one of the names read by the pages
    ([files], [user], [role]), which no built-in prototype defines: a
    [TypeError] on [null], the own member of an object, and [undefined]
    otherwise. *)
Definition prop (k : string) (v : json) : exn + option json :=
  match v with
  | JNull => inl TypeError
  | JObject ms => inr (lookup_member (units k) ms)
  | _ => inr None
  end.

(** [v || d] for a value that may be [undefined]. *)
Definition or_else (v : option json) (d : json) : json :=
  match v with
  | Some j => if truthy j then j else d
  | None => d
  end.

(** *** fetchUserRole (lines 389-401) *)

Definition fetchUserRole (token : option string) : state -> state :=
  send (GetUserRole (bearer token)) KUserRole.

Definition fetchUserRole_resume (r : response) (s : state) : state :=
  match r with
  | Fulfilled data =>
      if truthy data then
        match prop "user" data with
        | inr (Some user) =>
            if truthy user then
              match prop "role" user with
              | inr role => setUserRole role s
              | inl _ => s
              end
            else s
        | _ => s
        end
      else s
  | Rejected _ => s
  end.

(** *** fetchFiles (lines 413-428) *)

Definition files_error : string :=
  "Failed to fetch files. Please check if the backend server is running.".

Definition fetchFiles (token : option string) : state -> state :=
  seq [ setLoading true;
        send (GetFiles (bearer token)) KFiles ].

Definition fetchFiles_resume (r : response) : state -> state :=
  match r with
  | Fulfilled data =>
      match prop "files" data with
      | inr files =>
          seq [ setFileList (or_else files (JArray []));
                setError "";
                setLoading false ]
      | inl _ =>
          seq [ setError files_error;
                setLoading false ]
      end
  | Rejected _ =>
      seq [ setError files_error;
            setLoading false ]
  end.

(** *** The effect on [keycloak?.authenticated] (lines 381-386) *)

Definition mount (authenticated : bool) (token : option string) (s : state)
    : state :=
  if authenticated then seq [ fetchFiles token; fetchUserRole token ] s
  else s.

(** *** handleFileChange (lines 431-434); [files[0]] is [undefined] when
    the dialog is left without a file. *)

Definition handleFileChange (picked : option File) : state -> state :=
  seq [ setSelectedFile picked;
        setUploadStatus "" ].

(** *** handleUpload (lines 437-479) *)

Definition text_part (key value : string) : list (string * part) :=
  if String.eqb (trim value) "" then [] else [(key, TextPart (trim value))].

Definition form_of (f : File) (s : state) : list (string * part) :=
  [("file", FilePart f)]
    ++ text_part "custom_filename" (customFileName s)
    ++ text_part "description" (fileDescription s).

Definition success_message (f : File) : string :=
  ("File " ++ dq ++ name f ++ dq ++ " uploaded successfully!")%string.

Definition failure_message (err : axios_error) : string :=
  ("Error uploading file: "
     ++ match response_error err with
        | Some e => if String.eqb e "" then message err else e
        | None => message err
        end)%string.

Definition handleUpload (token : option string) (s : state) : state :=
  match selectedFile s with
  | None => setUploadStatus "Please select a file first" s
  | Some f =>
      seq [ setLoading true;
            send (PostUpload (form_of f s) (bearer token)) (KUpload f token) ] s
  end.

Definition handleUpload_resume (f : File) (token : option string)
    (r : response) : state -> state :=
  match r with
  | Fulfilled _ =>
      seq [ setUploadStatus (success_message f);
            setSelectedFile None;
            setCustomFileName "";
            setFileDescription "";
            fetchFiles token;
            setLoading false ]
  | Rejected err =>
      seq [ setUploadStatus (failure_message err);
            setLoading false ]
  end.

(** *** What the render derives from the state *)

(** The Upload button (line 619). *)
Definition upload_disabled (s : state) : bool :=
  match selectedFile s with None => true | Some _ => false end
  || loading s
  || String.eqb (trim (customFileName s)) ""
  || String.eqb (trim (fileDescription s)) "".

(** The Refresh List button (line 706). *)
Definition refresh_disabled (s : state) : bool := loading s.

(** The status box (lines 624-628): absent while the status is empty,
    red when the status has the word Error in it, green otherwise. *)
Inductive alert : Type := NoAlert | AlertDanger | AlertSuccess.

Definition status_alert (s : state) : alert :=
  if String.eqb (uploadStatus s) "" then NoAlert
  else if includes "Error" (uploadStatus s) then AlertDanger
  else AlertSuccess.

(** The answer to the [i]-th request in flight. *)
Definition deliver (i : nat) (r : response) (s : state) : option state :=
  match inflight s !! i with
  | Some (_, k) =>
      let s1 :=
        State (selectedFile s) (uploadStatus s) (fileList s) (loading s)
              (error s) (customFileName s) (fileDescription s) (activeTab s)
              (userRole s) (delete i (inflight s)) in
      Some match k with
           | KUpload f token => handleUpload_resume f token r s1
           | KFiles => fetchFiles_resume r s1
           | KUserRole => fetchUserRole_resume r s1
           end
  | None => None
  end.

End App.

(** ** The start-up script of the database ([cassandra-init/init.sh]) *)

Module InitSh.

Definition MAX_ATTEMPTS : nat := 30.

(** The three statements the script gives to [cqlsh]. *)
Inductive statement : Type :=
| DescribeKeyspaces
| CreateKeyspace
| CreateTables.

(** What the script does, in order; a [cqlsh] call with its outcome. *)
Inductive action : Type :=
| Echo (line : string)
| Cqlsh (stmt : statement) (ok : bool)
| Sleep (seconds : nat).

(** The database as the script meets it: whether it answers the probe
    made when [ATTEMPT] is [n], and whether the two statements that
    create the keyspace and the tables succeed. *)
Record world : Type := {
  up : nat -> bool;
  keyspace_ok : bool;
  tables_ok : bool
}.

Definition decimal (n : nat) : string := NilZero.string_of_uint (Nat.to_uint n).

Definition unavailable (ATTEMPT : nat) : string :=
  ("Cassandra is unavailable - sleeping (attempt " ++ decimal ATTEMPT
     ++ "/" ++ decimal MAX_ATTEMPTS ++ ")")%string.

Definition failed : string :=
  ("Failed to connect to Cassandra after " ++ decimal MAX_ATTEMPTS
     ++ " attempts")%string.

(** The [while] loop (lines 10-18), run while [ATTEMPT] is below
    [MAX_ATTEMPTS]; [remaining] is [MAX_ATTEMPTS - ATTEMPT].  It gives
    what was done and the final value of [ATTEMPT]. *)
Fixpoint wait (w : world) (remaining ATTEMPT : nat) : list action * nat :=
  match remaining with
  | O => ([], ATTEMPT)
  | S remaining' =>
      if up w ATTEMPT then
        ([ Cqlsh DescribeKeyspaces true;
           Echo "Cassandra is up - executing CQL" ], ATTEMPT)
      else
        let '(rest, final) := wait w remaining' (S ATTEMPT) in
        (Cqlsh DescribeKeyspaces false
           :: Echo (unavailable (S ATTEMPT))
           :: Sleep 10
           :: rest,
         final)
  end.

(** The script: what it does and its exit status. *)
Definition script (w : world) : list action * nat :=
  let '(waited, ATTEMPT) := wait w MAX_ATTEMPTS 0 in
  let start := Echo "Waiting for Cassandra to be ready..." :: waited in
  if (ATTEMPT =? MAX_ATTEMPTS)%nat then
    (start ++ [Echo failed], 1%nat)
  else
    (start ++ [ Cqlsh CreateKeyspace (keyspace_ok w);
                Cqlsh CreateTables (tables_ok w);
                Echo "Database initialization completed successfully" ],
     0%nat).

(** *** Observations on a run *)

Definition is_probe (a : action) : bool :=
  match a with
  | Cqlsh DescribeKeyspaces _ => true
  | _ => false
  end.

Definition probes (l : list action) : nat := length (List.filter is_probe l).

Fixpoint slept (l : list action) : nat :=
  match l with
  | Sleep n :: r => (n + slept r)%nat
  | _ :: r => slept r
  | [] => O
  end.

(** The statements other than the probe, in the order they were run. *)
Fixpoint created (l : list action) : list statement :=
  match l with
  | Cqlsh DescribeKeyspaces _ :: r => created r
  | Cqlsh stmt _ :: r => stmt :: created r
  | _ :: r => created r
  | [] => []
  end.

End InitSh.

(** ** The access token as the specification describes it

    Section 6 of the specification: the access token is a three-segment
    structure whose middle segment is a base64url-encoded JSON object
    containing at minimum an [exp] (epoch seconds) claim and a role or
    subject claim.  These definitions follow that sentence, not the code;
    they are compared with the decoding of the code. *)

Module Spec.

Import JS.






End Spec.

(** ** Verification *)

Import JS Provider.

(** *** Sample data: tokens as the identity provider issues them *)

(** Payload [{exp: 3600}] between a header and a signature segment. *)
Definition token_3600 : string := "h.eyJleHAiOjM2MDB9.s".

(** Payload [{exp: 4000000000}]. *)
Definition token_far : string := "h.eyJleHAiOjQwMDAwMDAwMDB9.s".


(** A stored session: both entries present. *)
Definition stored_session (access refresh : string) : gmap string string :=
  <["refresh_token" := refresh]> (<["token" := access]> ∅).

(** The page loaded with a token that is far from expiry, and with one
    that expires in five seconds. *)
Definition session_far : state := boot (stored_session token_far "r0") 0.
Definition session_expiring : state :=
  boot (stored_session token_3600 "r0") 3595000.

(** The login form filled in and submitted, the answer outstanding. *)
Definition awaiting_login : state :=
  login "alice" "secret" (setPassword "secret" (setUsername "alice" (init ∅))).

(** The user types a name and a password and submits the form, and the
    identity provider grants the two tokens. *)
Definition login_ok (access refresh : string) : list event :=
  [ Change_username "alice"; Change_password "secret"; Submit;
    Response 0 (Fulfilled access refresh) ].

(** A file picked and the two texts typed into the upload form, then
    the Upload button clicked by a user whose token is [token_far]. *)
Definition lecture : App.File :=
  {| App.name := "lecture1.pdf"; App.content := "%PDF" |}.

Definition form_filled : App.state :=
  App.State (Some lecture) "" (JArray []) false "" " Algebra " "First lecture"
            "upload" None [].

Definition uploading : App.state :=
  App.handleUpload (Some token_far) form_filled.

(** The upload granted, and the same file picked and described again
    while the list of files asked for after the upload is outstanding. *)
Definition uploaded : App.state :=
  default App.init (App.deliver 0 (App.Fulfilled JNull) uploading).

Definition form_refilled : App.state :=
  App.setFileDescription "First lecture"
    (App.setCustomFileName "Algebra"
       (App.handleFileChange (Some lecture) uploaded)).

(** A database that answers the third probe and then fails both
    statements. *)
Definition slow_database : InitSh.world :=
  {| InitSh.up := fun n => Nat.leb 2 n;
     InitSh.keyspace_ok := false;
     InitSh.tables_ok := false |}.

(** *** The host functions on sample tokens *)

(** The payload of [token_3600]. *)
Example tokenData_3600 :
  tokenData token_3600 = inr (JObject [(units "exp", JNumber (Dec 3600 0))]).
Proof. vm_compute. reflexivity. Qed.

(** [atob] skips white space and takes padding or none. *)
Example atob_forgiving : atob " bnVs bA== " = atob "bnVsbA".
Proof. vm_compute. reflexivity. Qed.

(** [atob] is base64, not base64url: the payload
    [{exp: 4000000000, sub: a?b}] in the URL-safe alphabet has an
    underscore and is rejected; in the standard alphabet it decodes. *)
Example atob_rejects_base64url :
  expiryTime "h.eyJleHAiOjQwMDAwMDAwMDAsInN1YiI6ImE_YiJ9.s"
    = inl InvalidCharacterError
  /\ expiryTime "h.eyJleHAiOjQwMDAwMDAwMDAsInN1YiI6ImE/YiJ9.s"
       = inr (Dec 4000000000000 0).
Proof. split; vm_compute; reflexivity. Qed.

(** Of two [exp] members the last one counts; an escaped key is the key. *)
Example exp_duplicate_and_escaped :
  expiryTime "a.eyJleHAiOjEsImV4cCI6NX0.c" = inr (Dec 5000 0)
  /\ expiryTime "a.eyJcdTAwNjV4cCI6Mn0.c" = inr (Dec 2000 0).
Proof. split; vm_compute; reflexivity. Qed.

(** [exp] is coerced by [*]: the string [0x10] is 16, the nested array
    [[["12"]]] is 12. *)
Example exp_coerced :
  expiryTime "a.eyJleHAiOiIweDEwIn0.c" = inr (Dec 16000 0)
  /\ expiryTime "a.eyJleHAiOltbIjEyIl1dfQ.c" = inr (Dec 12000 0).
Proof. split; vm_compute; reflexivity. Qed.

(** The payloads [null] and [{exp: {toString: 1}}] raise a [TypeError];
    the payload [7] has no [exp]. *)
Example exp_type_errors :
  expiryTime "a.bnVsbA.c" = inl TypeError
  /\ expiryTime "a.eyJleHAiOnsidG9TdHJpbmciOjF9fQ.c" = inl TypeError
  /\ expiryTime "a.Nw.c" = inr NaN.
Proof. repeat split; vm_compute; reflexivity. Qed.

(** *** Basic facts about the primitive effects *)

Section Effects.

Variable s : state.

Lemma truthy_Some (r : string) : r <> "" -> truthy (Some r) = true.
Proof.
  intros Hr. unfold truthy.
  destruct (String.eqb_spec r "") as [->|_]; [congruence | reflexivity].
Qed.

Lemma logout_store_empty : store_empty (logout s).
Proof.
  unfold store_empty, getItem, logout, seq; cbn.
  split.
  - rewrite lookup_delete_ne by discriminate. apply lookup_delete_eq.
  - apply lookup_delete_eq.
Qed.

Lemma logout_cells :
  isAuthenticated (logout s) = false /\ token (logout s) = None
  /\ calls (logout s) = calls s ++ [SetToken None; SetIsAuthenticated false]
  /\ inflight (logout s) = inflight s /\ posted (logout s) = posted s
  /\ microtasks (logout s) = microtasks s /\ error (logout s) = error s
  /\ loading (logout s) = loading s.
Proof.
  unfold logout, seq; cbn. rewrite <- app_assoc. repeat split; reflexivity.
Qed.

(** A call of [updateToken] with a usable refresh token stored. *)
Lemma updateToken_posts {A : Type} (m : A) (r : string) :
  getItem "refresh_token" s = Some r -> r <> "" ->
  updateToken m s = (post (refresh_request r) KUpdateToken s, Pending).
Proof.
  intros Hget Hne. unfold updateToken. rewrite Hget.
  rewrite (truthy_Some r Hne). reflexivity.
Qed.

End Effects.

Lemma renewals_post_refresh (s : state) (r : string) (k : cont) :
  renewals_in_flight (post (refresh_request r) k s) = S (renewals_in_flight s).
Proof.
  unfold renewals_in_flight, post; cbn.
  rewrite List.filter_app, length_app; cbn. lia.
Qed.

(** One timer fire in an authenticated session. *)
Lemma tick_posts (s : state) (r : string) :
  microtasks s = [] -> isAuthenticated s = true ->
  getItem "refresh_token" s = Some r -> r <> "" ->
  step s Tick = Some (post (refresh_request r) KUpdateToken s).
Proof.
  intros Hm Ha Hget Hne. unfold step. rewrite Hm, Ha. cbn.
  rewrite (updateToken_posts s 60 r Hget Hne). reflexivity.
Qed.

Lemma ticks_post (n : nat) : forall (s : state) (r : string),
  microtasks s = [] -> isAuthenticated s = true ->
  getItem "refresh_token" s = Some r -> r <> "" ->
  exists s', run s (repeat Tick n) = Some s'
    /\ renewals_in_flight s' = (renewals_in_flight s + n)%nat
    /\ posted s' = posted s ++ repeat (refresh_request r) n
    /\ localStorage s' = localStorage s
    /\ isAuthenticated s' = true /\ token s' = token s.
Proof.
  induction n as [|n IH]; intros s r Hm Ha Hget Hne.
  - exists s. cbn. rewrite app_nil_r, Nat.add_0_r. repeat split; auto.
  - cbn [repeat run]. rewrite (tick_posts s r Hm Ha Hget Hne).
    destruct (IH (post (refresh_request r) KUpdateToken s) r)
      as (s' & Hrun & Hn & Hp & Hls & Ha' & Ht); auto.
    exists s'. rewrite Hrun, Hn, Hp, Hls, Ha', Ht, renewals_post_refresh.
    cbn. rewrite <- app_assoc. cbn. repeat split; auto; lia.
Qed.

(** *** C1: renewals in flight *)

(** C1, as the specification states it, fails on the code: after a login,
    two timer fires with no answer in between leave two refresh requests
    in flight, both carrying the same refresh token. *)
Lemma C1_two_renewals_in_flight :
  exists s,
    run (boot ∅ 0) (login_ok token_3600 "r0" ++ [Tick; Tick]) = Some s
    /\ renewals_in_flight s = 2%nat
    /\ posted s = [ password_request "alice" "secret";
                    refresh_request "r0"; refresh_request "r0" ]
    /\ ~ (renewals_in_flight s <= 1)%nat.
Proof.
  eexists. split; [vm_compute; reflexivity|].
  split; [vm_compute; reflexivity|].
  split; [vm_compute; reflexivity|].
  vm_compute. lia.
Qed.

(** C1 (amended): a renewal trigger is never coalesced.  In an
    authenticated session with a non-empty refresh token stored, [n]
    timer fires with no answer in between send [n] refresh requests, all
    with the stored refresh token, and raise the number of renewals in
    flight by [n], whatever was in flight before. *)
Theorem C1_every_trigger_sends_a_request (n : nat) (s : state) (r : string)
    (Hidle : microtasks s = [])
    (Hauth : isAuthenticated s = true)
    (Hstored : getItem "refresh_token" s = Some r)
    (Hne : r <> "") :
  exists s', run s (repeat Tick n) = Some s'
    /\ renewals_in_flight s' = (renewals_in_flight s + n)%nat
    /\ posted s' = posted s ++ repeat (refresh_request r) n.
Proof.
  destruct (ticks_post n s r Hidle Hauth Hstored Hne)
    as (s' & Hrun & Hn & Hp & _).
  exists s'. auto.
Qed.

Lemma C1_witness :
  exists s', run (boot (stored_session token_far "r0") 0) (repeat Tick 3) = Some s'
    /\ renewals_in_flight s' =
         (renewals_in_flight (boot (stored_session token_far "r0") 0) + 3)%nat
    /\ posted s' = posted (boot (stored_session token_far "r0") 0)
                     ++ repeat (refresh_request "r0") 3.
Proof.
  apply (C1_every_trigger_sends_a_request 3
           (boot (stored_session token_far "r0") 0) "r0");
    [vm_compute; reflexivity | vm_compute; reflexivity
    | vm_compute; reflexivity | discriminate].
Defined.

(** *** Rejected renewals *)

(** Whatever the failure, a rejected renewal ends in [logout], run on the
    state the request was answered in. *)
Lemma rejected_renewal (s : state) (i : nat) (req : request) (k : cont)
    (f : failure) :
  microtasks s = [] -> inflight s !! i = Some (req, k) -> is_renewal k = true ->
  run s (rejection k i f)
    = Some (logout (with_inflight (delete i (inflight s)) s)).
Proof.
  intros Hm Hin Hk. destruct k; [discriminate| |].
  - cbn. unfold step at 1. rewrite Hm, Hin. cbn.
    unfold step, enqueue, with_inflight, with_microtasks; cbn.
    rewrite Hm. cbn. reflexivity.
  - cbn. unfold step. rewrite Hm, Hin. cbn. reflexivity.
Qed.

(** On the way there the session is never half logged out: the answer to
    a start-up refresh leaves every cell and both entries as they were. *)
Lemma rejected_renewal_first_step (s : state) (i : nat) (req : request)
    (k : cont) (f : failure) :
  microtasks s = [] -> inflight s !! i = Some (req, k) -> is_renewal k = true ->
  exists s1, step s (Response i (Rejected f)) = Some s1
    /\ (s1 = logout (with_inflight (delete i (inflight s)) s)
        \/ (localStorage s1 = localStorage s /\ token s1 = token s
            /\ isAuthenticated s1 = isAuthenticated s /\ calls s1 = calls s)).
Proof.
  intros Hm Hin Hk. unfold step. rewrite Hm, Hin.
  eexists; split; [reflexivity|].
  destruct k; [discriminate| |]; cbn.
  - right. repeat split.
  - left. reflexivity.
Qed.

(** A step that takes the session from authenticated to not
    authenticated is a whole [logout]: there is no other way out. *)
Lemma only_logout_deauthenticates (s s' : state) (e : event) :
  step s e = Some s' ->
  isAuthenticated s = true -> isAuthenticated s' = false ->
  store_empty s' /\ token s' = None
  /\ calls s' = calls s ++ [SetToken None; SetIsAuthenticated false].
Proof.
  intros Hstep Ha Ha'. unfold step in Hstep.
  destruct (microtasks s) as [|t rest] eqn:Hm.
  - destruct e as [v|v| | | |i r|]; try discriminate Hstep.
    + rewrite Ha in Hstep. discriminate Hstep.
    + rewrite Ha in Hstep. discriminate Hstep.
    + rewrite Ha in Hstep. discriminate Hstep.
    + rewrite Ha in Hstep. injection Hstep as <-. cbn in Ha'.
      unfold updateToken in Ha'. destruct (negb _) in Ha'; cbn in Ha'; congruence.
    + rewrite Ha in Hstep. injection Hstep as <-.
      split; [apply logout_store_empty|]. split; [reflexivity|].
      apply (logout_cells s).
    + destruct (inflight s !! i) as [[req k]|]; [|discriminate Hstep].
      injection Hstep as <-.
      destruct k, r; cbn in Ha'; try congruence.
      split; [apply logout_store_empty|]. split; [reflexivity|].
      apply (logout_cells (with_inflight (delete i (inflight s)) s)).
  - destruct e; try discriminate Hstep. injection Hstep as <-.
    destruct t as [[|]]; cbn in Ha'; [congruence|].
    split; [apply logout_store_empty|]. split; [reflexivity|].
    apply (logout_cells (with_microtasks rest s)).
Qed.

(** *** C2: a transient failure of a renewal *)

(** C2, as the specification states it, fails on the code: in a session
    just logged in, the first renewal that meets a network error logs the
    user out at once; the credential is gone from memory and from the
    store, and nothing is left in flight to retry. *)
Lemma C2_network_error_logs_out :
  exists s0 s1,
    run (boot ∅ 0) (login_ok token_far "r0" ++ [Tick]) = Some s0
    /\ isAuthenticated s0 = true /\ token s0 = Some token_far
    /\ step s0 (Response 0 (Rejected NetworkError)) = Some s1
    /\ isAuthenticated s1 = false /\ token s1 = None
    /\ getItem "token" s1 = None /\ getItem "refresh_token" s1 = None
    /\ inflight s1 = [].
Proof.
  eexists; eexists.
  split; [vm_compute; reflexivity|].
  split; [reflexivity|]. split; [reflexivity|].
  split; [vm_compute; reflexivity|].
  repeat split.
Qed.

(** C2 (amended): a renewal that fails with a network error is treated
    like any other failure.  The session is logged out by the handler of
    the rejected request (for the start-up check, in the microtask that
    follows it): the credential is cleared from memory and both entries
    are removed; no request is sent again, the failed one is no longer
    in flight, and no timer fire follows, the children being gone. *)
Theorem C2_transient_failure_logs_out (s : state) (i : nat) (req : request)
    (k : cont)
    (Hidle : microtasks s = [])
    (Hin : inflight s !! i = Some (req, k))
    (Hk : is_renewal k = true) :
  exists s', run s (rejection k i NetworkError) = Some s'
    /\ logged_out s' /\ store_empty s'
    /\ posted s' = posted s
    /\ inflight s' = delete i (inflight s)
    /\ microtasks s' = []
    /\ step s' Tick = None.
Proof.
  eexists. split; [exact (rejected_renewal s i req k _ Hidle Hin Hk)|].
  split; [split; reflexivity|].
  split; [apply logout_store_empty|].
  split; [reflexivity|]. split; [reflexivity|]. split; [exact Hidle|].
  unfold step. cbn. rewrite Hidle. reflexivity.
Qed.

Lemma C2_witness :
  exists s', run session_expiring
               (rejection KRefreshToken 0 NetworkError) = Some s'
    /\ logged_out s' /\ store_empty s'
    /\ posted s' = posted session_expiring
    /\ inflight s' = delete 0%nat (inflight session_expiring)
    /\ microtasks s' = []
    /\ step s' Tick = None.
Proof.
  apply (C2_transient_failure_logs_out session_expiring 0
           (refresh_request "r0") KRefreshToken);
    vm_compute; reflexivity.
Defined.

(** *** C5: a hard failure of a renewal *)

(** C5: a renewal rejected by the identity provider with an error status
    (such as 400 [invalid_grant]) ends in [logout], which runs once: both
    entries are removed, the credential in memory is cleared, and the
    collaborators are told once, by the single [setIsAuthenticated(false)]
    that [logout] adds to the setter calls.  No state on the way is half
    logged out: the state after the answer is either the logged-out one
    or has memory, store and setter calls untouched.  And [logout] is the
    only way out: whatever step ends an authenticated session leaves the
    store empty, the credential cleared and the same two setter calls. *)
Theorem C5_hard_failure_logs_out_once (s : state) (i : nat) (req : request)
    (k : cont) (status : Z) (code : string)
    (Hidle : microtasks s = [])
    (Hin : inflight s !! i = Some (req, k))
    (Hk : is_renewal k = true) :
  exists s', run s (rejection k i (HttpError status code)) = Some s'
    /\ s' = logout (with_inflight (delete i (inflight s)) s)
    /\ store_empty s' /\ logged_out s'
    /\ calls s' = calls s ++ [SetToken None; SetIsAuthenticated false]
    /\ (exists s1, step s (Response i (Rejected (HttpError status code))) = Some s1
          /\ (s1 = s'
              \/ (localStorage s1 = localStorage s /\ token s1 = token s
                  /\ isAuthenticated s1 = isAuthenticated s
                  /\ calls s1 = calls s)))
    /\ (forall (a b : state) (e : event),
          step a e = Some b ->
          isAuthenticated a = true -> isAuthenticated b = false ->
          store_empty b /\ token b = None
          /\ calls b = calls a ++ [SetToken None; SetIsAuthenticated false]).
Proof.
  eexists. split; [exact (rejected_renewal s i req k _ Hidle Hin Hk)|].
  split; [reflexivity|].
  split; [apply logout_store_empty|].
  split; [split; reflexivity|].
  split; [apply (logout_cells (with_inflight (delete i (inflight s)) s))|].
  split; [exact (rejected_renewal_first_step s i req k _ Hidle Hin Hk)|].
  exact only_logout_deauthenticates.
Qed.

Lemma C5_witness :
  exists s', run (fst (updateToken 60 session_far))
               (rejection KUpdateToken 0 (HttpError 400 "invalid_grant")) = Some s'
    /\ store_empty s' /\ logged_out s'
    /\ calls s' = calls session_far ++ [SetToken None; SetIsAuthenticated false].
Proof.
  destruct (C5_hard_failure_logs_out_once
              (fst (updateToken 60 session_far))
              0 (refresh_request "r0") KUpdateToken 400 "invalid_grant")
    as (s' & Hrun & _ & Hstore & Hout & Hcalls & _);
    [vm_compute; reflexivity | vm_compute; reflexivity | reflexivity |].
  exists s'. repeat split; try assumption; apply Hstore || apply Hout.
Defined.

(** *** The login form *)

Section Filter_delete.

Context {A : Type} (P : A -> bool).

Lemma filter_delete_length (l : list A) : forall (i : nat) (x : A),
  l !! i = Some x ->
  length (List.filter P l)
    = (length (List.filter P (delete i l)) + (if P x then 1 else 0))%nat.
Proof.
  induction l as [|a l IH]; intros i x Hi; [discriminate|].
  destruct i as [|i]; simpl in Hi |- *.
  - injection Hi as ->. destruct (P x); simpl; lia.
  - specialize (IH i x Hi). destruct (P a); simpl; lia.
Qed.

Lemma filter_lookup_pos (l : list A) (i : nat) (x : A) :
  l !! i = Some x -> P x = true -> (1 <= length (List.filter P l))%nat.
Proof.
  intros Hi Hx. rewrite (filter_delete_length l i x Hi), Hx. lia.
Qed.

End Filter_delete.

Lemma pending_logins_lookup (s : state) (i : nat) (req : request) :
  inflight s !! i = Some (req, KLogin) -> (1 <= pending_logins s)%nat.
Proof.
  intros Hi. unfold pending_logins.
  exact (filter_lookup_pos _ _ i (req, KLogin) Hi eq_refl).
Qed.

Lemma pending_logins_answered (s : state) (i : nat) (req : request) (k : cont) :
  inflight s !! i = Some (req, k) ->
  pending_logins s
    = (length (List.filter (fun rk => negb (is_renewal (snd rk)))
                 (delete i (inflight s)))
       + (if is_renewal k then 0 else 1))%nat.
Proof.
  intros Hi. unfold pending_logins.
  rewrite (filter_delete_length _ _ i (req, k) Hi). cbn.
  destruct (is_renewal k); reflexivity.
Qed.

Lemma form_invariant_boot (ls : gmap string string) (now : Z) :
  form_invariant (boot ls now).
Proof.
  unfold boot, mount. destruct (truthy _); [|split; cbn; [lia|discriminate]].
  unfold checkTokenValidity. destruct (expiryTime _) as [e|x].
  - split; cbn; [lia|discriminate].
  - destruct (expires_soon x now); [|split; cbn; [lia|discriminate]].
    unfold refreshToken. destruct (truthy _); split; cbn; (lia || discriminate).
Qed.

Lemma form_invariant_step (s s' : state) (e : event) :
  form_invariant s -> step s e = Some s' -> form_invariant s'.
Proof.
  intros [Hle Hone] Hstep. unfold step in Hstep. unfold form_invariant.
  destruct (microtasks s) as [|t rest] eqn:Hm.
  - destruct e as [v|v| | | |i r|]; try discriminate.
    + destruct (isAuthenticated s) eqn:Ha; [discriminate|].
      injection Hstep as <-. split; [exact Hle|].
      intros H1. destruct (Hone H1) as [_ Hl]. split; [exact Ha | exact Hl].
    + destruct (isAuthenticated s) eqn:Ha; [discriminate|].
      injection Hstep as <-. split; [exact Hle|].
      intros H1. destruct (Hone H1) as [_ Hl]. split; [exact Ha | exact Hl].
    + destruct (isAuthenticated s) eqn:Ha; [discriminate|].
      destruct (loading s) eqn:Hl; [discriminate|]. cbn in Hstep.
      destruct (negb _ && negb _); [|discriminate].
      injection Hstep as <-.
      assert (pending_logins s = 0%nat) as H0.
      { destruct (pending_logins s) as [|[|n]] eqn:Hp; [reflexivity| |lia].
        destruct (Hone eq_refl) as [_ Hl']. congruence. }
      unfold pending_logins in *. cbn.
      rewrite List.filter_app, length_app, H0. cbn.
      split; [lia | intros _; split; [exact Ha | reflexivity]].
    + destruct (isAuthenticated s) eqn:Ha; [|discriminate].
      injection Hstep as <-. cbn. unfold updateToken.
      assert (pending_logins s = 0%nat) as H0.
      { destruct (pending_logins s) as [|[|n]] eqn:Hp; [reflexivity| |lia].
        destruct (Hone eq_refl) as [Ha' _]. congruence. }
      destruct (negb _); cbn.
      * split; [lia | intros H1; rewrite H0 in H1; discriminate].
      * unfold pending_logins in *. cbn.
        rewrite List.filter_app, length_app, H0. cbn.
        split; [lia | discriminate].
    + destruct (isAuthenticated s) eqn:Ha; [|discriminate].
      injection Hstep as <-.
      assert (pending_logins s = 0%nat) as H0.
      { destruct (pending_logins s) as [|[|n]] eqn:Hp; [reflexivity| |lia].
        destruct (Hone eq_refl) as [Ha' _]. congruence. }
      unfold pending_logins in *. cbn. rewrite H0.
      split; [lia | discriminate].
    + destruct (inflight s !! i) as [[req k]|] eqn:Hi; [|discriminate].
      injection Hstep as <-.
      pose proof (pending_logins_answered s i req k Hi) as Hcount.
      set (n := length (List.filter (fun rk => negb (is_renewal (snd rk)))
                          (delete i (inflight s)))) in *.
      destruct k; cbn in Hcount.
      * assert (n = 0%nat) as Hn by lia.
        destruct r; unfold pending_logins; cbn; fold n; rewrite Hn;
          (split; [lia | discriminate]).
      * destruct r; unfold pending_logins; cbn; fold n;
          (split; [lia | intros H1; apply Hone; lia]).
      * destruct r; unfold pending_logins; cbn; fold n.
        -- split; [lia | intros H1; apply Hone; lia].
        -- split; [lia | intros H1; split; [reflexivity | apply Hone; lia]].
  - destruct e; try discriminate. injection Hstep as <-.
    destruct t as [[|]]; unfold pending_logins; cbn.
    + split; [exact Hle | exact Hone].
    + split; [exact Hle | intros H1; split; [reflexivity | apply Hone, H1]].
Qed.

Lemma form_invariant_run (es : list event) : forall (s s' : state),
  form_invariant s -> run s es = Some s' -> form_invariant s'.
Proof.
  induction es as [|e es IH]; intros s s' Hinv Hrun; cbn in Hrun.
  - injection Hrun as <-. exact Hinv.
  - destruct (step s e) as [s1|] eqn:Hstep; [|discriminate].
    exact (IH s1 s' (form_invariant_step s s1 e Hinv Hstep) Hrun).
Qed.

Lemma form_invariant_reachable (s : state) : reachable s -> form_invariant s.
Proof.
  intros (ls & now & es & Hrun).
  exact (form_invariant_run es _ s (form_invariant_boot ls now) Hrun).
Qed.

Lemma login_error_message_shown : login_error_message <> "".
Proof. discriminate. Qed.

(** *** C6: a rejected login *)

(** C6: when the identity provider rejects the password grant of a login,
    the session is logged out afterwards (the form stays on screen), the
    error message is set and is not empty, so the form shows it, and
    [localStorage] is exactly what it was: nothing written, overwritten
    or removed.  The credential in memory is untouched as well. *)
Theorem C6_rejected_login_leaves_store (s : state) (i : nat) (req : request)
    (f : failure)
    (Hreach : reachable s)
    (Hidle : microtasks s = [])
    (Hin : inflight s !! i = Some (req, KLogin)) :
  exists s', run s (rejection KLogin i f) = Some s'
    /\ isAuthenticated s' = false
    /\ error s' = login_error_message /\ error s' <> ""
    /\ localStorage s' = localStorage s
    /\ token s' = token s
    /\ loading s' = false
    /\ posted s' = posted s.
Proof.
  destruct (form_invariant_reachable s Hreach) as [Hle Hone].
  pose proof (pending_logins_lookup s i req Hin) as Hpos.
  destruct (Hone ltac:(lia)) as [Ha _].
  cbn. unfold step. rewrite Hidle, Hin.
  eexists. split; [reflexivity|]. cbn.
  repeat split; auto using login_error_message_shown.
Qed.

Lemma awaiting_login_reachable : reachable awaiting_login.
Proof.
  exists ∅, 0, [Change_username "alice"; Change_password "secret"; Submit].
  reflexivity.
Qed.

Lemma C6_witness :
  exists s', run awaiting_login
               (rejection KLogin 0 (HttpError 401 "invalid_grant")) = Some s'
    /\ isAuthenticated s' = false
    /\ error s' = login_error_message /\ error s' <> ""
    /\ localStorage s' = localStorage awaiting_login
    /\ token s' = token awaiting_login
    /\ loading s' = false
    /\ posted s' = posted awaiting_login.
Proof.
  apply (C6_rejected_login_leaves_store awaiting_login 0
           (password_request "alice" "secret"));
    [exact awaiting_login_reachable | reflexivity | reflexivity].
Defined.

(** *** C8: the object handed to the children *)

(** C8, as the specification states it, fails on the code: the object
    the children receive carries [logout], and calling it from an
    authenticated session changes the session and the store.  It is the
    call behind the Logout link of [App]. *)
Lemma C8_facade_logout_mutates :
  kc_authenticated (keycloak session_far) = true
  /\ step session_far Click_logout
       = Some (kc_logout (keycloak session_far) session_far)
  /\ isAuthenticated (kc_logout (keycloak session_far) session_far) = false
  /\ getItem "token" session_far = Some token_far
  /\ getItem "token" (kc_logout (keycloak session_far) session_far) = None
  /\ kc_logout (keycloak session_far) session_far <> session_far.
Proof.
  split; [reflexivity|]. split; [reflexivity|]. split; [reflexivity|].
  split; [reflexivity|]. split; [reflexivity|].
  intros H. apply (f_equal isAuthenticated) in H. discriminate H.
Qed.

(** C8 (amended): the object handed to the children holds three
    read-only snapshots ([token], [refreshToken], [authenticated]) and
    three operations that are the session's own [login], [logout] and
    [updateToken].  Whoever holds it can clear the store and the session,
    send a password grant, and send a refresh grant. *)
Theorem C8_facade_exposes_session_operations (s cur : state) (m : Z)
    (r : string)
    (Hstored : getItem "refresh_token" cur = Some r)
    (Hne : r <> "") :
  kc_token (keycloak s) = token s
  /\ kc_refreshToken (keycloak s) = getItem "refresh_token" s
  /\ kc_authenticated (keycloak s) = isAuthenticated s
  /\ store_empty (kc_logout (keycloak s) cur)
  /\ logged_out (kc_logout (keycloak s) cur)
  /\ posted (kc_login (keycloak s) cur)
       = posted cur ++ [password_request (username s) (password s)]
  /\ posted (fst (kc_updateToken (keycloak s) m cur))
       = posted cur ++ [refresh_request r].
Proof.
  split; [reflexivity|]. split; [reflexivity|]. split; [reflexivity|].
  split; [apply logout_store_empty|].
  split; [split; reflexivity|].
  split; [reflexivity|].
  cbn. rewrite (updateToken_posts cur m r Hstored Hne). reflexivity.
Qed.

Lemma C8_witness :
  store_empty (kc_logout (keycloak session_far) session_far)
  /\ logged_out (kc_logout (keycloak session_far) session_far)
  /\ posted (fst (kc_updateToken (keycloak session_far) 60 session_far))
       = posted session_far ++ [refresh_request "r0"].
Proof.
  destruct (C8_facade_exposes_session_operations session_far session_far 60 "r0")
    as (_ & _ & _ & Hstore & Hout & _ & Hupd);
    [reflexivity | discriminate |].
  split; [exact Hstore|]. split; [exact Hout | exact Hupd].
Defined.

(** *** C10: the argument of updateToken *)



(** *** Decoding a token *)

Lemma split_no_dot (t : string) : no_dot t = true -> split "." t = [t].
Proof.
  induction t as [|c t IH]; intros H; [reflexivity|].
  unfold no_dot in H. cbn in H. apply andb_prop in H as [Hc Ht].
  cbn. destruct (Ascii.eqb c "."); [discriminate|].
  rewrite (IH Ht). reflexivity.
Qed.

Lemma split_app_dot (h r : string) :
  no_dot h = true -> split "." (h ++ "." ++ r)%string = h :: split "." r.
Proof.
  induction h as [|c h IH]; intros H; [reflexivity|].
  unfold no_dot in H. cbn in H. apply andb_prop in H as [Hc Hh].
  specialize (IH Hh).
  change (split "." (String c (h ++ "." ++ r)%string) = String c h :: split "." r).
  cbn [split]. destruct (Ascii.eqb c "."); [discriminate|].
  rewrite IH. reflexivity.
Qed.

Lemma second_of_two (h p : string) :
  no_dot h = true -> no_dot p = true ->
  nth_error (split "." (h ++ "." ++ p)%string) 1 = Some p.
Proof.
  intros Hh Hp. rewrite (split_app_dot h p Hh), (split_no_dot p Hp). reflexivity.
Qed.

Lemma second_of_more (h p rest : string) :
  no_dot h = true -> no_dot p = true ->
  nth_error (split "." (h ++ "." ++ p ++ "." ++ rest)%string) 1 = Some p.
Proof.
  intros Hh Hp. rewrite (split_app_dot h _ Hh), (split_app_dot p rest Hp).
  reflexivity.
Qed.

Lemma atob_undefined : atob (ToString_opt None) = inl InvalidCharacterError.
Proof. vm_compute. reflexivity. Qed.

Lemma atob_error (p : string) (e : exn) :
  atob p = inl e -> e = InvalidCharacterError.
Proof.
  unfold atob. destruct (_ =? 1)%nat; [congruence|].
  destruct (b64_values _); congruence.
Qed.

Lemma JSON_parse_error (text : string) (e : exn) :
  JSON_parse text = inl e -> e = SyntaxError.
Proof.
  unfold JSON_parse. destruct (lex _ _); [|congruence].
  destruct (parse_tokens _ _); congruence.
Qed.

(** The decoding applied to the segment it reads. *)
Lemma expiryTime_of_segment (t p : string) :
  nth_error (split "." t) 1 = Some p ->
  expiryTime t =
    (let! text := atob p in
     let! data := JSON_parse text in
     let! exp := prop_exp data in
     let! n := ToNumber exp in
     inr (num_mul n (of_int 1000))).
Proof.
  intros Hseg. unfold expiryTime, tokenData. rewrite Hseg. cbn.
  destruct (atob p); reflexivity.
Qed.

Lemma expires_soon_int (m now : Z) :
  expires_soon (Dec m 0) now = (m - now <? 300000).
Proof.
  unfold expires_soon, num_sub, num_ltb, of_int, scale. cbn.
  rewrite !Z.mul_1_r. reflexivity.
Qed.

(** *** C4: what decoding accepts and rejects *)

(** C4, as the specification states it, fails on the code: a token of
    two segments is decoded, and so is a token whose payload has no
    [exp]; the latter gives the expiry [NaN], raises nothing, and a page
    loaded with it stays authenticated. *)
Lemma C4_malformed_tokens_are_decoded :
  length (split "." "x.eyJleHAiOjF9") = 2%nat
  /\ expiryTime "x.eyJleHAiOjF9" = inr (Dec 1000 0)
  /\ tokenData "h.eyJzdWIiOiJ1In0.s"
       = inr (JObject [(units "sub", JString (units "u"))])
  /\ expiryTime "h.eyJzdWIiOiJ1In0.s" = inr NaN
  /\ isAuthenticated (boot (stored_session "h.eyJzdWIiOiJ1In0.s" "r0") 0) = true
  /\ token (boot (stored_session "h.eyJzdWIiOiJ1In0.s" "r0") 0)
       = Some "h.eyJzdWIiOiJ1In0.s".
Proof. repeat split; vm_compute; reflexivity. Qed.

(** C4 (amended): decoding reads the second dot-separated segment and
    nothing else; neither the signature nor the number of segments is
    looked at, so a token of two segments decodes like any token with the
    same second segment.  It fails exactly when that segment is not
    base64 for [atob], when the decoded text is not JSON, when the JSON
    value is [null], or when the [exp] member cannot be converted to a
    primitive; a token without a dot fails as well.  A payload that is an
    object without [exp] does not fail: its expiry is [NaN], which never
    counts as close to expiry. *)
Theorem C4_decode_reads_second_segment (h h' p rest : string)
    (Hh : no_dot h = true) (Hh' : no_dot h' = true) (Hp : no_dot p = true) :
  expiryTime (h ++ "." ++ p)%string
    = expiryTime (h' ++ "." ++ p ++ "." ++ rest)%string
  /\ ((exists e, expiryTime (h ++ "." ++ p ++ "." ++ rest)%string = inl e)
      <-> (atob p = inl InvalidCharacterError
           \/ exists text, atob p = inr text
                /\ (JSON_parse text = inl SyntaxError
                    \/ JSON_parse text = inr JNull
                    \/ exists ms v, JSON_parse text = inr (JObject ms)
                         /\ lookup_member (units "exp") ms = Some v
                         /\ to_primitive_throws v = true)))
  /\ (forall text ms, atob p = inr text ->
        JSON_parse text = inr (JObject ms) ->
        lookup_member (units "exp") ms = None ->
        expiryTime (h ++ "." ++ p ++ "." ++ rest)%string = inr NaN
        /\ forall now, expires_soon NaN now = false)
  /\ expiryTime h = inl InvalidCharacterError.
Proof.
  pose proof (second_of_two h p Hh Hp) as H2.
  pose proof (second_of_more h p rest Hh Hp) as H3.
  pose proof (second_of_more h' p rest Hh' Hp) as H3'.
  split.
  { rewrite (expiryTime_of_segment _ p H2), (expiryTime_of_segment _ p H3').
    reflexivity. }
  rewrite (expiryTime_of_segment _ p H3).
  split; [|split].
  - destruct (atob p) as [x|text] eqn:Hatob; cbn [bind].
    { rewrite (atob_error p x Hatob). split; [intros _; left; reflexivity|].
      intros _. eexists; reflexivity. }
    destruct (JSON_parse text) as [y|v] eqn:Hj; cbn [bind].
    { rewrite (JSON_parse_error text y Hj).
      split; [|intros _; eexists; reflexivity].
      intros _. right. exists text. rewrite Hj, (JSON_parse_error text y Hj).
      split; [reflexivity | left; reflexivity]. }
    split.
    + intros [e He]. right. exists text. split; [reflexivity|]. rewrite Hj.
      right. destruct v as [|b|n|str|l|ms]; cbn [bind prop_exp ToNumber] in He;
        try discriminate He.
      * left. reflexivity.
      * right. exists ms.
        destruct (lookup_member (units "exp") ms) as [v|];
          cbn [bind ToNumber] in He; [|discriminate He].
        exists v. destruct (to_primitive_throws v) eqn:Ht;
          [repeat split | discriminate He].
    + intros [Hbad | (text' & Htext & Hcase)]; [discriminate Hbad|].
      injection Htext as <-. rewrite Hj in Hcase.
      destruct Hcase as [Hbad | [Hnull | (ms & v' & Hobj & Hl & Ht)]];
        [discriminate Hbad | |].
      * injection Hnull as ->. eexists; reflexivity.
      * injection Hobj as ->. cbn [bind prop_exp]. rewrite Hl.
        cbn [bind ToNumber]. rewrite Ht. eexists; reflexivity.
  - intros text ms Hatob Hj Hl. rewrite Hatob. cbn [bind]. rewrite Hj.
    cbn [bind prop_exp]. rewrite Hl.
    split; [reflexivity | intros now; reflexivity].
  - unfold expiryTime, tokenData. rewrite (split_no_dot h Hh). cbn [nth_error].
    rewrite atob_undefined. reflexivity.
Qed.

Lemma C4_witness :
  expiryTime "x.eyJleHAiOjF9" = expiryTime "h.eyJleHAiOjF9.signature"
  /\ expiryTime "x" = inl InvalidCharacterError.
Proof.
  destruct (C4_decode_reads_second_segment "x" "h" "eyJleHAiOjF9" "signature")
    as (Hsame & _ & _ & Hnone); [reflexivity | reflexivity | reflexivity |].
  split; [exact Hsame | exact Hnone].
Defined.

(** *** The page start, case by case *)

Lemma expiryTime_empty : expiryTime "" = inl InvalidCharacterError.
Proof. vm_compute. reflexivity. Qed.

Lemma boot_cases (ls : gmap string string) (now : Z) :
  boot ls now =
    match ls !! "token" with
    | None => init ls
    | Some t =>
        if String.eqb t "" then init ls
        else
          let s1 := setIsAuthenticated true (setToken (Some t) (init ls)) in
          match expiryTime t with
          | inl _ => logout s1
          | inr x =>
              if expires_soon x now then
                match ls !! "refresh_token" with
                | Some r =>
                    if String.eqb r "" then enqueue (TResume false) s1
                    else post (refresh_request r) KRefreshToken s1
                | None => enqueue (TResume false) s1
                end
              else s1
          end
    end.
Proof.
  unfold boot, mount, getItem. cbn [localStorage init].
  destruct (ls !! "token") as [t|]; [|reflexivity].
  cbn [truthy]. destruct (String.eqb t ""); [reflexivity|].
  cbn [negb ToString_opt]. unfold checkTokenValidity.
  destruct (expiryTime t) as [e|x]; [reflexivity|].
  destruct (expires_soon x now); [|reflexivity].
  unfold refreshToken.
  destruct (ls !! "refresh_token") as [r|]; [|reflexivity].
  cbn [truthy]. destruct (String.eqb r ""); reflexivity.
Qed.

Lemma eqb_empty_false (t : string) : t <> "" -> String.eqb t "" = false.
Proof. intros H. destruct (String.eqb_spec t ""); congruence. Qed.

(** *** C9: what the page start exposes *)

(** C9, as the specification states it, fails on the code: with a stored
    token that cannot be decoded the page start ends logged out.  The two
    setters are called first, but the decoding and the [logout] of its
    [catch] run in the same effect, before anything else can look at the
    session, and the store is cleared. *)
Lemma C9_undecodable_token_is_not_exposed :
  getItem "token" (init (stored_session "abc.def.ghi" "r0")) = Some "abc.def.ghi"
  /\ isAuthenticated (boot (stored_session "abc.def.ghi" "r0") 0) = false
  /\ token (boot (stored_session "abc.def.ghi" "r0") 0) = None
  /\ exposed (boot (stored_session "abc.def.ghi" "r0") 0) = None
  /\ getItem "token" (boot (stored_session "abc.def.ghi" "r0") 0) = None
  /\ calls (boot (stored_session "abc.def.ghi" "r0") 0)
       = [ SetToken (Some "abc.def.ghi"); SetIsAuthenticated true;
           SetToken None; SetIsAuthenticated false ].
Proof. repeat split; vm_compute; reflexivity. Qed.

(** C9 (amended): when the page starts with a non-empty access token
    stored, [setToken] and [setIsAuthenticated(true)] are called first,
    whatever the token is, and the token is decoded within the same
    effect.  If decoding raises, [logout] runs there and then: the session
    ends logged out with the store cleared, nothing sent, and the token
    never exposed.  If decoding succeeds the stored credential is exposed
    and the store untouched; when the token is close to expiry a refresh
    request with the stored refresh token is in flight or, for want of a
    refresh token, the [logout] waits in a microtask; otherwise nothing is
    pending. *)
Theorem C9_page_start (ls : gmap string string) (now : Z) (t : string)
    (Htoken : ls !! "token" = Some t)
    (Hne : t <> "") :
  (exists rest,
     calls (boot ls now) = [SetToken (Some t); SetIsAuthenticated true] ++ rest)
  /\ match expiryTime t with
     | inl _ =>
         logged_out (boot ls now) /\ store_empty (boot ls now)
         /\ exposed (boot ls now) = None
         /\ posted (boot ls now) = [] /\ microtasks (boot ls now) = []
     | inr x =>
         exposed (boot ls now) = Some (t, ls !! "refresh_token")
         /\ localStorage (boot ls now) = ls
         /\ (if expires_soon x now then
               if truthy (ls !! "refresh_token") then
                 inflight (boot ls now)
                   = [(refresh_request (ToString_opt (ls !! "refresh_token")),
                       KRefreshToken)]
                 /\ microtasks (boot ls now) = []
               else
                 inflight (boot ls now) = []
                 /\ microtasks (boot ls now) = [TResume false]
             else inflight (boot ls now) = [] /\ microtasks (boot ls now) = [])
     end.
Proof.
  rewrite (boot_cases ls now), Htoken, (eqb_empty_false t Hne). cbn zeta.
  destruct (expiryTime t) as [e|x].
  - split; [eexists; reflexivity|].
    split; [split; reflexivity|].
    split; [apply logout_store_empty|]. repeat split.
  - destruct (expires_soon x now).
    + destruct (ls !! "refresh_token") as [r|] eqn:Hr.
      * cbn [truthy]. destruct (String.eqb r ""); cbn.
        -- split; [exists []; reflexivity|]. unfold exposed, getItem; cbn.
           rewrite ?Htoken, ?Hr. repeat split.
        -- split; [exists []; reflexivity|]. unfold exposed, getItem; cbn.
           rewrite ?Htoken, ?Hr. repeat split.
      * cbn. split; [exists []; reflexivity|]. unfold exposed, getItem; cbn.
        rewrite ?Htoken, ?Hr. repeat split.
    + split; [exists []; reflexivity|]. unfold exposed, getItem; cbn.
      rewrite ?Htoken. repeat split.
Qed.

Lemma C9_witness :
  (exists rest,
     calls session_expiring
       = [SetToken (Some token_3600); SetIsAuthenticated true] ++ rest)
  /\ exposed session_expiring = Some (token_3600, Some "r0")
  /\ inflight session_expiring = [(refresh_request "r0", KRefreshToken)].
Proof.
  destruct (C9_page_start (stored_session token_3600 "r0") 3595000 token_3600)
    as [Hcalls Hcase]; [reflexivity | discriminate |].
  split; [exact Hcalls|].
  vm_compute in Hcase. destruct Hcase as (Hexp & _ & Hin & _).
  split; [exact Hexp | exact Hin].
Defined.

(** *** C3: when a renewal is triggered *)

(** C3, as the specification states it, fails on the code: thirty
    seconds after a login whose token expires in an hour, with 3570
    seconds left, the timer fire sends a refresh request all the same. *)
Lemma C3_timer_renews_a_fresh_token :
  exists s0 s1,
    run (boot ∅ 0) (login_ok token_3600 "r0") = Some s0
    /\ isAuthenticated s0 = true /\ token s0 = Some token_3600
    /\ expiryTime token_3600 = inr (Dec 3600000 0)
    /\ expires_soon (Dec 3600000 0) 30000 = false
    /\ step s0 Tick = Some s1
    /\ posted s1 = posted s0 ++ [refresh_request "r0"]
    /\ renewals_in_flight s1 = 1%nat.
Proof.
  eexists; eexists.
  split; [vm_compute; reflexivity|].
  repeat split; vm_compute; reflexivity.
Qed.

(** C3 (amended): while the session is authenticated every timer fire
    sends a refresh-grant request with the stored refresh token, whatever
    the lifetime left on the access token; so the timer fire five seconds
    before expiry triggers a renewal, and so does one an hour before.
    The five-minute margin is applied once, by the check at page start:
    for a stored token whose [exp] is the integer [n] and a non-empty
    refresh token, a refresh request is sent exactly when
    [n * 1000 - now < 300000], and the session is authenticated either
    way. *)
Theorem C3_renewal_triggers (s : state) (r : string)
    (ls : gmap string string) (now : Z) (t r' : string) (n : Z)
    (Hidle : microtasks s = [])
    (Hauth : isAuthenticated s = true)
    (Hstored : getItem "refresh_token" s = Some r)
    (Hne : r <> "")
    (Htoken : ls !! "token" = Some t)
    (Hrefresh : ls !! "refresh_token" = Some r')
    (Hne' : r' <> "")
    (Hexp : expiryTime t = inr (Dec (n * 1000) 0)) :
  step s Tick = Some (post (refresh_request r) KUpdateToken s)
  /\ posted (boot ls now)
       = (if n * 1000 - now <? 300000 then [refresh_request r'] else [])
  /\ isAuthenticated (boot ls now) = true.
Proof.
  split; [exact (tick_posts s r Hidle Hauth Hstored Hne)|].
  assert (t <> "") as Ht.
  { intros ->. rewrite expiryTime_empty in Hexp. discriminate Hexp. }
  rewrite (boot_cases ls now), Htoken, (eqb_empty_false t Ht), Hexp, Hrefresh,
    (eqb_empty_false r' Hne'), expires_soon_int.
  cbn zeta. destruct (n * 1000 - now <? 300000); split; reflexivity.
Qed.

Lemma C3_witness :
  step session_far Tick
    = Some (post (refresh_request "r0") KUpdateToken session_far)
  /\ posted (boot (stored_session token_3600 "r0") 3595000)
       = (if 3600 * 1000 - 3595000 <? 300000 then [refresh_request "r0"] else [])
  /\ isAuthenticated (boot (stored_session token_3600 "r0") 3595000) = true.
Proof.
  apply (C3_renewal_triggers session_far "r0"
           (stored_session token_3600 "r0") 3595000 token_3600 "r0" 3600);
    try discriminate; vm_compute; reflexivity.
Defined.

(** *** C7: the credential store *)







(** ** Further properties of the provider *)

(** *** Invariants of the reachable states *)

Section Invariants.

Variable P : state -> Prop.
Hypothesis P_step : forall (s s' : state) (e : event),
  P s -> step s e = Some s' -> P s'.

Lemma invariant_run (es : list event) : forall (s s' : state),
  P s -> run s es = Some s' -> P s'.
Proof.
  induction es as [|e es IH]; intros s s' HP Hrun; cbn in Hrun.
  - injection Hrun as <-. exact HP.
  - destruct (step s e) as [s1|] eqn:Hstep; [|discriminate Hrun].
    exact (IH s1 s' (P_step s s1 e HP Hstep) Hrun).
Qed.

Lemma invariant_reachable :
  (forall ls now, P (boot ls now)) -> forall s, reachable s -> P s.
Proof.
  intros Hboot s (ls & now & es & Hrun).
  exact (invariant_run es _ s (Hboot ls now) Hrun).
Qed.

End Invariants.

(** *** Steps as sequences of primitive effects *)

Ltac effect_step :=
  first [ apply eff_username | apply eff_password | apply eff_error
        | apply eff_loading | apply eff_enqueue | apply eff_inflight
        | apply eff_microtasks | apply eff_store | apply eff_logout
        | apply eff_post | apply eff_token | apply eff_authenticated ].

Ltac effects :=
  repeat match goal with
         | |- effect_of ?s ?s => apply eff_refl
         | |- effect_of ?s (?f ?x) =>
             apply (eff_trans s x (f x)); [|effect_step]
         end.

Lemma well_formed_refresh (r : string) : r <> "" -> well_formed (refresh_request r).
Proof. intros H. repeat split. exact H. Qed.

Lemma well_formed_password (u p : string) :
  u <> "" -> p <> "" -> well_formed (password_request u p).
Proof. intros Hu Hp. repeat split; assumption. Qed.

Lemma eqb_empty_neq (t : string) : String.eqb t "" = false -> t <> "".
Proof. intros H ->. discriminate H. Qed.

Lemma boot_effect (ls : gmap string string) (now : Z) :
  effect_of (init ls) (boot ls now).
Proof.
  rewrite boot_cases.
  destruct (ls !! "token") as [t|] eqn:Ht; [|apply eff_refl].
  destruct (String.eqb t ""); [apply eff_refl|]. cbn zeta.
  assert (effect_of (init ls)
            (setIsAuthenticated true (setToken (Some t) (init ls)))) as H1.
  { effects; [exact Ht | discriminate]. }
  destruct (expiryTime t) as [e|x].
  - apply (eff_trans _ _ _ H1). apply eff_logout.
  - destruct (expires_soon x now); [|exact H1].
    destruct (ls !! "refresh_token") as [r|].
    + destruct (String.eqb r "") eqn:Hr; apply (eff_trans _ _ _ H1).
      * apply eff_enqueue.
      * apply eff_post, well_formed_refresh, eqb_empty_neq, Hr.
    + apply (eff_trans _ _ _ H1). apply eff_enqueue.
Qed.

Lemma step_effect (s s' : state) (e : event) :
  step s e = Some s' -> effect_of s s'.
Proof.
  intros Hstep. unfold step in Hstep.
  destruct (microtasks s) as [|t rest] eqn:Hm.
  - destruct e as [v|v| | | |i r|]; try discriminate Hstep.
    + destruct (isAuthenticated s); [discriminate Hstep|].
      injection Hstep as <-. apply eff_username.
    + destruct (isAuthenticated s); [discriminate Hstep|].
      injection Hstep as <-. apply eff_password.
    + destruct (isAuthenticated s); [discriminate Hstep|].
      destruct (loading s); [discriminate Hstep|]. cbn [negb andb] in Hstep.
      destruct (String.eqb (username s) "") eqn:Hu; [discriminate Hstep|].
      destruct (String.eqb (password s) "") eqn:Hp; [discriminate Hstep|].
      injection Hstep as <-. unfold login, seq. cbn [fold_left].
      effects. apply well_formed_password; apply eqb_empty_neq; assumption.
    + destruct (isAuthenticated s); [|discriminate Hstep].
      injection Hstep as <-. cbn [keycloak kc_updateToken]. unfold updateToken.
      destruct (getItem "refresh_token" s) as [r|]; [|apply eff_refl].
      cbn [truthy]. destruct (String.eqb r "") eqn:Hr; [apply eff_refl|].
      cbn [negb fst ToString_opt]. apply eff_post, well_formed_refresh.
      exact (eqb_empty_neq r Hr).
    + destruct (isAuthenticated s); [|discriminate Hstep].
      injection Hstep as <-. apply eff_logout.
    + destruct (inflight s !! i) as [[req k]|]; [|discriminate Hstep].
      injection Hstep as <-.
      destruct k, r as [a r|f]; unfold deliver, login_resume, refreshToken_resume,
        updateToken_resume, seq; cbn [fold_left fst]; effects.
      unfold store_tokens, seq; cbn. discriminate.
  - destruct e; try discriminate Hstep. injection Hstep as <-.
    destruct t as [[|]]; unfold run_task, checkTokenValidity_resume; cbn [negb];
      effects.
Qed.

Lemma reachable_effect (ls : gmap string string) (now : Z) (es : list event)
    (s : state) :
  run (boot ls now) es = Some s -> effect_of (init ls) s.
Proof.
  apply (invariant_run (effect_of (init ls))).
  - intros s1 s2 e H1 Hstep. exact (eff_trans _ _ _ H1 (step_effect s1 s2 e Hstep)).
  - apply boot_effect.
Qed.

Lemma effect_session_invariant (s s' : state) :
  effect_of s s' -> session_invariant s -> session_invariant s'.
Proof.
  induction 1 as [s|s1 s2 s3 _ IH1 _ IH2|v s|v s|v s|b s|r k s _|t s|l s|l s
                  |a r s|t s Ht|s Ht|s]; intros [Hp Ha]; auto;
    try (split; [exact Hp | exact Ha]).
  - apply IH2, IH1. split; assumption.
  - split; [|discriminate]. intros t Ht. cbn in Ht. injection Ht as <-.
    unfold getItem, store_tokens, save, seq; cbn.
    rewrite lookup_insert_ne by discriminate. apply lookup_insert_eq.
  - split; [|discriminate]. intros t' Ht'. cbn in Ht'. injection Ht' as <-.
    exact Ht.
  - split; [exact Hp | intros _; exact Ht].
  - split; [intros t Ht; discriminate Ht | intros Hf; discriminate Hf].
Qed.

Lemma effect_same_elsewhere (s s' : state) :
  effect_of s s' -> same_elsewhere (localStorage s) (localStorage s').
Proof.
  induction 1 as [s|s1 s2 s3 _ IH1 _ IH2|v s|v s|v s|b s|r c s _|t s|l s|l s
                  |a r s|t s Ht|s Ht|s]; intros k Hk1 Hk2;
    try reflexivity.
  - rewrite (IH1 k Hk1 Hk2). exact (IH2 k Hk1 Hk2).
  - unfold store_tokens, save, seq; cbn.
    rewrite !lookup_insert_ne by congruence. reflexivity.
  - unfold logout, seq; cbn.
    rewrite !lookup_delete_ne by congruence. reflexivity.
Qed.

Lemma effect_posted (s s' : state) :
  effect_of s s' ->
  Forall well_formed (posted s) -> Forall well_formed (posted s').
Proof.
  induction 1 as [s|s1 s2 s3 _ IH1 _ IH2|v s|v s|v s|b s|r k s Hr|t s|l s|l s
                  |a r s|t s Ht|s Ht|s]; intros Hall; auto.
  cbn. apply Forall_app. split; [exact Hall|]. constructor; [exact Hr|constructor].
Qed.

(** In every reachable state a token held in memory is the one stored
    under [token], and an authenticated session has a token in memory:
    what the children read through the [keycloak] object is the stored
    credential, never [null]. *)
Theorem exposed_credential_is_stored (s : state) (Hreach : reachable s) :
  (forall t r, exposed s = Some (t, r) -> load s = (Some t, r))
  /\ (isAuthenticated s = true ->
      exists t, kc_token (keycloak s) = Some t /\ getItem "token" s = Some t
        /\ exposed s = Some (t, kc_refreshToken (keycloak s))).
Proof.
  destruct Hreach as (ls & now & es & Hrun).
  assert (session_invariant s) as [Hp Ha].
  { apply (effect_session_invariant (init ls) s (reachable_effect ls now es s Hrun)).
    split; [intros t Ht; discriminate Ht | intros Hf; discriminate Hf]. }
  split.
  - intros t r. unfold exposed, load.
    destruct (isAuthenticated s); [|discriminate].
    destruct (token s) as [t'|] eqn:Ht; [|discriminate].
    intros H. injection H as <- <-. rewrite (Hp t' Ht). reflexivity.
  - intros Hauth. destruct (token s) as [t|] eqn:Ht; [|destruct (Ha Hauth eq_refl)].
    exists t. split; [exact Ht|]. split; [exact (Hp t Ht)|].
    unfold exposed. rewrite Hauth, Ht. reflexivity.
Qed.

Lemma exposed_credential_is_stored_witness :
  exists t, kc_token (keycloak session_expiring) = Some t
    /\ getItem "token" session_expiring = Some t.
Proof.
  destruct (exposed_credential_is_stored session_expiring) as [_ H].
  - exists (stored_session token_3600 "r0"), 3595000, []. reflexivity.
  - destruct (H eq_refl) as (t & Ht & Hs & _). exists t. split; assumption.
Defined.

(** The component never touches a key of [localStorage] other than
    [token] and [refresh_token]: whatever the page was loaded with under
    another key is still there, unchanged, in every state it reaches. *)
Theorem other_keys_untouched (ls : gmap string string) (now : Z)
    (es : list event) (s : state) (k : string)
    (Hrun : run (boot ls now) es = Some s)
    (Hk1 : k <> "token") (Hk2 : k <> "refresh_token") :
  getItem k s = ls !! k.
Proof.
  symmetry.
  exact (effect_same_elsewhere _ _ (reachable_effect ls now es s Hrun) k Hk1 Hk2).
Qed.

Lemma other_keys_untouched_witness :
  exists s,
    run (boot (<["theme" := "dark"]> (stored_session token_far "r0")) 0)
        [Tick; Response 0 (Rejected NetworkError)] = Some s
    /\ getItem "theme" s = Some "dark" /\ getItem "token" s = None.
Proof.
  eexists. split; [vm_compute; reflexivity|]. split; [|reflexivity].
  rewrite (other_keys_untouched
             (<["theme" := "dark"]> (stored_session token_far "r0")) 0
             [Tick; Response 0 (Rejected NetworkError)] _ "theme");
    [reflexivity | vm_compute; reflexivity | discriminate | discriminate].
Defined.

(** Every request the component ever sends goes to the token endpoint of
    the realm with the client id of the front end; a password grant never
    carries an empty user name or password, and a refresh grant never an
    empty refresh token. *)
Theorem requests_are_well_formed (s : state) (r : request)
    (Hreach : reachable s) (Hin : In r (posted s)) :
  url r = token_endpoint /\ client_id r = CLIENT_ID
  /\ match grant_type r with
     | PasswordGrant u p => u <> "" /\ p <> ""
     | RefreshGrant t => t <> ""
     end.
Proof.
  destruct Hreach as (ls & now & es & Hrun).
  assert (Forall well_formed (posted s)) as Hall.
  { apply (effect_posted (init ls) s (reachable_effect ls now es s Hrun)).
    constructor. }
  rewrite List.Forall_forall in Hall. exact (Hall r Hin).
Qed.

Lemma requests_are_well_formed_witness :
  url (password_request "alice" "secret") = token_endpoint
  /\ client_id (password_request "alice" "secret") = CLIENT_ID
  /\ ("alice" <> "" /\ "secret" <> "").
Proof.
  apply (requests_are_well_formed awaiting_login
           (password_request "alice" "secret") awaiting_login_reachable).
  left. reflexivity.
Defined.

(** *** The login form, continued *)

Lemma no_pending_login (s : state) :
  form_invariant s -> (isAuthenticated s = true \/ loading s = false) ->
  pending_logins s = 0%nat.
Proof.
  intros [Hle Hone] Hor.
  destruct (pending_logins s) as [|[|n]] eqn:Hp; [reflexivity| |lia].
  destruct (Hone eq_refl) as [Ha Hl]. destruct Hor; congruence.
Qed.

Lemma login_invariant_boot (ls : gmap string string) (now : Z) :
  login_invariant (boot ls now).
Proof.
  intros _. rewrite boot_cases.
  destruct (ls !! "token") as [t|]; [|reflexivity].
  destruct (String.eqb t ""); [reflexivity|]. cbn zeta.
  destruct (expiryTime t) as [e|x]; [reflexivity|].
  destruct (expires_soon x now); [|reflexivity].
  destruct (ls !! "refresh_token") as [r|]; [|reflexivity].
  destruct (String.eqb r ""); reflexivity.
Qed.

Lemma login_invariant_step (s s' : state) (e : event) :
  form_invariant s /\ login_invariant s -> step s e = Some s' ->
  form_invariant s' /\ login_invariant s'.
Proof.
  intros [Hform Hlog] Hstep.
  split; [exact (form_invariant_step s s' e Hform Hstep)|].
  unfold login_invariant in *. unfold step in Hstep.
  destruct (microtasks s) as [|t rest] eqn:Hm.
  - destruct e as [v|v| | | |i r|]; try discriminate Hstep.
    + destruct (isAuthenticated s); [discriminate Hstep|].
      injection Hstep as <-. exact Hlog.
    + destruct (isAuthenticated s); [discriminate Hstep|].
      injection Hstep as <-. exact Hlog.
    + destruct (negb _ && negb _ && negb _ && negb _); [|discriminate Hstep].
      injection Hstep as <-. intros _. reflexivity.
    + destruct (isAuthenticated s) eqn:Ha; [|discriminate Hstep].
      injection Hstep as <-.
      pose proof (no_pending_login s Hform (or_introl Ha)) as H0.
      cbn [keycloak kc_updateToken]. unfold updateToken.
      destruct (negb _); cbn [fst]; [intros H1; congruence|].
      unfold pending_logins in *. cbn.
      rewrite List.filter_app, length_app, H0. cbn. discriminate.
    + destruct (isAuthenticated s) eqn:Ha; [|discriminate Hstep].
      injection Hstep as <-. exact Hlog.
    + destruct (inflight s !! i) as [[req k]|] eqn:Hi; [|discriminate Hstep].
      injection Hstep as <-.
      pose proof (pending_logins_answered s i req k Hi) as Hcount.
      destruct Hform as [Hle _].
      set (n := length (List.filter (fun rk => negb (is_renewal (snd rk)))
                          (delete i (inflight s)))) in *.
      destruct k; cbn in Hcount.
      * destruct r; unfold pending_logins; cbn; fold n; intros H1; lia.
      * destruct r; unfold pending_logins; cbn; fold n;
          intros H1; apply Hlog; lia.
      * destruct r; unfold pending_logins; cbn; fold n;
          intros H1; apply Hlog; lia.
  - destruct e; try discriminate Hstep. injection Hstep as <-.
    destruct t as [[|]]; exact Hlog.
Qed.

Lemma login_invariant_reachable (s : state) :
  reachable s -> form_invariant s /\ login_invariant s.
Proof.
  apply (invariant_reachable _ login_invariant_step).
  intros ls now. split; [apply form_invariant_boot | apply login_invariant_boot].
Qed.

(** At most one password grant is in flight at any time.  While it is,
    the form is on screen with its button disabled and without an error
    message, and a second submission is not possible. *)
Theorem one_login_at_a_time (s : state) (Hreach : reachable s) :
  (pending_logins s <= 1)%nat
  /\ (pending_logins s = 1%nat ->
      isAuthenticated s = false /\ loading s = true /\ error s = ""
      /\ step s Submit = None).
Proof.
  destruct (login_invariant_reachable s Hreach) as [[Hle Hone] Hlog].
  split; [exact Hle|]. intros H1. destruct (Hone H1) as [Ha Hl].
  split; [exact Ha|]. split; [exact Hl|]. split; [exact (Hlog H1)|].
  unfold step. rewrite Ha, Hl. destruct (microtasks s); reflexivity.
Qed.

Lemma one_login_at_a_time_witness :
  pending_logins awaiting_login = 1%nat /\ step awaiting_login Submit = None.
Proof.
  split; [reflexivity|].
  destruct (one_login_at_a_time awaiting_login awaiting_login_reachable)
    as [_ H].
  destruct (H eq_refl) as (_ & _ & _ & Hs). exact Hs.
Defined.

(** A granted login: the two tokens are stored and are the credential
    exposed, the session is authenticated, the button is enabled again,
    no error message is left, and no password grant remains in flight. *)
Theorem granted_login (s : state) (i : nat) (req : request)
    (access refresh : string)
    (Hreach : reachable s)
    (Hidle : microtasks s = [])
    (Hin : inflight s !! i = Some (req, KLogin)) :
  exists s', run s (fulfilment KLogin i access refresh) = Some s'
    /\ isAuthenticated s' = true
    /\ exposed s' = Some (access, Some refresh)
    /\ load s' = (Some access, Some refresh)
    /\ loading s' = false /\ error s' = ""
    /\ pending_logins s' = 0%nat
    /\ posted s' = posted s.
Proof.
  destruct (login_invariant_reachable s Hreach) as [[Hle Hone] Hlog].
  pose proof (pending_logins_lookup s i req Hin) as Hpos.
  pose proof (pending_logins_answered s i req KLogin Hin) as Hcount.
  cbn in Hcount.
  cbn [fulfilment run]. unfold step. rewrite Hidle, Hin.
  eexists. split; [reflexivity|].
  assert (forall m : gmap string string,
            <["refresh_token":=refresh]> (<["token":=access]> m) !! "token"
              = Some access) as Htok.
  { intros m. rewrite lookup_insert_ne by discriminate. apply lookup_insert_eq. }
  unfold exposed, load, getItem, pending_logins; cbn.
  rewrite Htok, lookup_insert_eq.
  repeat split; [apply Hlog; lia | lia].
Qed.

Lemma granted_login_witness :
  exists s', run awaiting_login (fulfilment KLogin 0 token_far "r0") = Some s'
    /\ isAuthenticated s' = true
    /\ exposed s' = Some (token_far, Some "r0")
    /\ load s' = (Some token_far, Some "r0")
    /\ loading s' = false /\ error s' = ""
    /\ pending_logins s' = 0%nat
    /\ posted s' = posted awaiting_login.
Proof.
  apply (granted_login awaiting_login 0 (password_request "alice" "secret"));
    [exact awaiting_login_reachable | reflexivity | reflexivity].
Defined.

(** Once the page has started, a session becomes authenticated in one
    way only: by the answer that grants a login.  No renewal answered
    late, no other event, turns a logged-out session into an
    authenticated one. *)
Theorem only_a_granted_login_authenticates (s s' : state) (e : event)
    (Hstep : step s e = Some s')
    (Hbefore : isAuthenticated s = false)
    (Hafter : isAuthenticated s' = true) :
  exists i req access refresh,
    e = Response i (Fulfilled access refresh)
    /\ inflight s !! i = Some (req, KLogin).
Proof.
  unfold step in Hstep.
  destruct (microtasks s) as [|t rest] eqn:Hm.
  - destruct e as [v|v| | | |i r|]; try discriminate Hstep.
    + rewrite Hbefore in Hstep. injection Hstep as <-. cbn in Hafter. congruence.
    + rewrite Hbefore in Hstep. injection Hstep as <-. cbn in Hafter. congruence.
    + destruct (negb _ && negb _ && negb _ && negb _); [|discriminate Hstep].
      injection Hstep as <-. cbn in Hafter. congruence.
    + rewrite Hbefore in Hstep. discriminate Hstep.
    + rewrite Hbefore in Hstep. discriminate Hstep.
    + destruct (inflight s !! i) as [[req k]|] eqn:Hi; [|discriminate Hstep].
      injection Hstep as <-.
      destruct k, r as [a r|f]; cbn in Hafter; try congruence.
      exists i, req, a, r. split; [reflexivity | exact Hi].
  - destruct e; try discriminate Hstep. injection Hstep as <-.
    destruct t as [[|]]; cbn in Hafter; congruence.
Qed.

Lemma only_a_granted_login_authenticates_witness :
  exists i req access refresh,
    Response 0 (Fulfilled token_far "r0") = Response i (Fulfilled access refresh)
    /\ inflight awaiting_login !! i = Some (req, KLogin).
Proof.
  apply (only_a_granted_login_authenticates awaiting_login
           (login_resume (Fulfilled token_far "r0")
              (with_inflight [] awaiting_login)));
    reflexivity.
Defined.

(** *** Granted renewals and renewals answered late *)

Lemma run_app (es1 es2 : list event) : forall (s : state),
  run s (es1 ++ es2)
    = match run s es1 with
      | Some s1 => run s1 es2
      | None => None
      end.
Proof.
  induction es1 as [|e es1 IH]; intros s; cbn; [reflexivity|].
  destruct (step s e); [apply IH | reflexivity].
Qed.

Lemma stored_after_store_tokens (access refresh : string) (s : state) :
  load (store_tokens access refresh s) = (Some access, Some refresh).
Proof.
  unfold load, getItem, store_tokens, save, seq; cbn.
  rewrite lookup_insert_ne by discriminate. rewrite !lookup_insert_eq.
  reflexivity.
Qed.

(** Whatever the path, a granted renewal ends in [store_tokens], run on
    the state the request was answered in. *)
Lemma fulfilled_renewal (s : state) (i : nat) (req : request) (k : cont)
    (access refresh : string) :
  microtasks s = [] -> inflight s !! i = Some (req, k) -> is_renewal k = true ->
  run s (fulfilment k i access refresh)
    = Some (store_tokens access refresh
              (with_inflight (delete i (inflight s)) s)).
Proof.
  intros Hm Hin Hk. destruct k; [discriminate| |].
  - cbn. unfold step at 1. rewrite Hm, Hin. cbn.
    unfold step, enqueue, with_inflight, with_microtasks; cbn.
    rewrite Hm. cbn. reflexivity.
  - cbn. unfold step. rewrite Hm, Hin. cbn. reflexivity.
Qed.

(** A page start from a store whose access token can be decoded. *)
Lemma boot_exposes_decodable (ls : gmap string string) (now : Z)
    (access : string) (x : number) :
  ls !! "token" = Some access -> expiryTime access = inr x ->
  exposed (boot ls now) = Some (access, ls !! "refresh_token").
Proof.
  intros Ht Hx.
  assert (access <> "") as Hne.
  { intros ->. rewrite expiryTime_empty in Hx. discriminate Hx. }
  rewrite boot_cases, Ht, (eqb_empty_false access Hne), Hx. cbn zeta.
  destruct (expires_soon x now);
    [destruct (ls !! "refresh_token") as [r|] eqn:Hr;
       [destruct (String.eqb r "")|]|];
    unfold exposed, getItem; cbn; rewrite ?Hr; reflexivity.
Qed.

(** A granted renewal, on either path, replaces the credential in the
    store and in memory by the two tokens of the answer with a single
    [setToken]; it sends nothing, and it leaves the session as it was: an
    authenticated one stays so, a logged-out one stays logged out. *)
Theorem granted_renewal (s : state) (i : nat) (req : request) (k : cont)
    (access refresh : string)
    (Hidle : microtasks s = [])
    (Hin : inflight s !! i = Some (req, k))
    (Hk : is_renewal k = true) :
  exists s', run s (fulfilment k i access refresh) = Some s'
    /\ load s' = (Some access, Some refresh)
    /\ token s' = Some access
    /\ isAuthenticated s' = isAuthenticated s
    /\ calls s' = calls s ++ [SetToken (Some access)]
    /\ posted s' = posted s
    /\ inflight s' = delete i (inflight s)
    /\ microtasks s' = [].
Proof.
  eexists. split; [exact (fulfilled_renewal s i req k _ _ Hidle Hin Hk)|].
  split; [apply stored_after_store_tokens|].
  repeat split. exact Hidle.
Qed.

Lemma granted_renewal_witness :
  exists s', run session_expiring
               (fulfilment KRefreshToken 0 token_far "r1") = Some s'
    /\ load s' = (Some token_far, Some "r1")
    /\ token s' = Some token_far
    /\ isAuthenticated s' = isAuthenticated session_expiring
    /\ calls s' = calls session_expiring ++ [SetToken (Some token_far)]
    /\ posted s' = posted session_expiring
    /\ inflight s' = delete 0%nat (inflight session_expiring)
    /\ microtasks s' = [].
Proof.
  apply (granted_renewal session_expiring 0 (refresh_request "r0") KRefreshToken);
    vm_compute; reflexivity.
Defined.

(** Logging out does not cancel a renewal in flight.  When its answer
    arrives after the logout and grants the renewal, the two tokens are
    written back to the store and the access token to memory although the
    session stays logged out; and the next page start from that store
    exposes the credential again, if its access token can be decoded. *)
Theorem logout_keeps_renewals_in_flight (s : state) (i : nat) (req : request)
    (k : cont) (access refresh : string) (now : Z) (x : number)
    (Hidle : microtasks s = [])
    (Hauth : isAuthenticated s = true)
    (Hin : inflight s !! i = Some (req, k))
    (Hk : is_renewal k = true)
    (Hvalid : expiryTime access = inr x) :
  exists s', run s (Click_logout :: fulfilment k i access refresh) = Some s'
    /\ isAuthenticated s' = false
    /\ load s' = (Some access, Some refresh)
    /\ token s' = Some access
    /\ exposed (boot (localStorage s') now) = Some (access, Some refresh).
Proof.
  cbn [run]. unfold step at 1. rewrite Hidle, Hauth. cbn [keycloak kc_logout].
  destruct (logout_cells s) as (Ha & _ & _ & Hi & _ & Hm & _).
  rewrite (fulfilled_renewal (logout s) i req k access refresh);
    [|rewrite Hm; exact Hidle | rewrite Hi; exact Hin | exact Hk].
  pose proof (stored_after_store_tokens access refresh
                (with_inflight (delete i (inflight (logout s))) (logout s)))
    as Hload.
  set (s' := store_tokens access refresh
               (with_inflight (delete i (inflight (logout s))) (logout s))) in *.
  exists s'. split; [reflexivity|].
  split; [reflexivity|]. split; [exact Hload|]. split; [reflexivity|].
  clearbody s'. unfold load, getItem in Hload. injection Hload as Ht Hr.
  rewrite (boot_exposes_decodable _ now access x Ht Hvalid), Hr. reflexivity.
Qed.

Lemma logout_keeps_renewals_in_flight_witness :
  exists s', run (fst (updateToken 60 session_far))
               (Click_logout :: fulfilment KUpdateToken 0 token_far "r1")
             = Some s'
    /\ isAuthenticated s' = false
    /\ load s' = (Some token_far, Some "r1")
    /\ token s' = Some token_far
    /\ exposed (boot (localStorage s') 0) = Some (token_far, Some "r1").
Proof.
  apply (logout_keeps_renewals_in_flight (fst (updateToken 60 session_far)) 0
           (refresh_request "r0") KUpdateToken token_far "r1" 0
           (Dec 4000000000000 0));
    vm_compute; reflexivity.
Defined.

Section Two_more.

Context {A : Type} (l : list A) (q : A).

Lemma first_of_two : ((l ++ [q]) ++ [q]) !! length l = Some q.
Proof. rewrite <- app_assoc. apply list_lookup_middle. reflexivity. Qed.

Lemma delete_first_of_two : delete (length l) ((l ++ [q]) ++ [q]) = l ++ [q].
Proof. rewrite <- app_assoc. exact (delete_middle l [q] q). Qed.

End Two_more.

(** Two renewals in flight at once.  When the identity provider grants
    the first and rejects the second, the rejection logs the session out
    and removes the credential the first one has just stored. *)
Theorem second_renewal_rejected (s : state) (r0 access refresh : string)
    (f : failure)
    (Hidle : microtasks s = [])
    (Hauth : isAuthenticated s = true)
    (Hstored : getItem "refresh_token" s = Some r0)
    (Hne : r0 <> "") :
  exists s1 s2,
    run s [Tick; Tick; Response (length (inflight s)) (Fulfilled access refresh)]
      = Some s1
    /\ isAuthenticated s1 = true
    /\ load s1 = (Some access, Some refresh)
    /\ step s1 (Response (length (inflight s)) (Rejected f)) = Some s2
    /\ logged_out s2 /\ store_empty s2
    /\ posted s2 = posted s ++ [refresh_request r0; refresh_request r0].
Proof.
  set (q := (refresh_request r0, KUpdateToken)).
  set (sa := post (refresh_request r0) KUpdateToken s).
  set (sb := post (refresh_request r0) KUpdateToken sa).
  assert (inflight sb !! length (inflight s) = Some q) as Hfirst.
  { exact (first_of_two (inflight s) q). }
  assert (delete (length (inflight s)) (inflight sb) = inflight s ++ [q])
    as Hdel.
  { exact (delete_first_of_two (inflight s) q). }
  assert (run s [Tick; Tick] = Some sb) as Hticks.
  { cbn [run]. rewrite (tick_posts s r0 Hidle Hauth Hstored Hne). fold sa.
    rewrite (tick_posts sa r0 Hidle Hauth Hstored Hne). reflexivity. }
  set (s1 := store_tokens access refresh (with_inflight (inflight s ++ [q]) sb)).
  assert (inflight s1 !! length (inflight s) = Some q) as Hsecond.
  { cbn. apply list_lookup_middle. reflexivity. }
  exists s1, (logout (with_inflight (delete (length (inflight s)) (inflight s1)) s1)).
  split.
  { change [Tick; Tick; Response (length (inflight s)) (Fulfilled access refresh)]
      with ([Tick; Tick]
              ++ fulfilment KUpdateToken (length (inflight s)) access refresh).
    rewrite run_app, Hticks.
    rewrite (fulfilled_renewal sb _ (refresh_request r0) KUpdateToken
               access refresh Hidle Hfirst eq_refl), Hdel. reflexivity. }
  split; [exact Hauth|].
  split; [apply stored_after_store_tokens|].
  split.
  { pose proof (rejected_renewal s1 (length (inflight s)) (refresh_request r0)
                  KUpdateToken f Hidle Hsecond eq_refl) as Hrej.
    cbn [rejection run] in Hrej.
    destruct (step s1 _) as [s2|]; [exact Hrej | discriminate Hrej]. }
  split; [split; reflexivity|].
  split; [apply logout_store_empty|].
  cbn. rewrite <- app_assoc. reflexivity.
Qed.

Lemma second_renewal_rejected_witness :
  exists s1 s2,
    run session_far
      [Tick; Tick; Response (length (inflight session_far)) (Fulfilled token_far "r1")]
      = Some s1
    /\ isAuthenticated s1 = true
    /\ load s1 = (Some token_far, Some "r1")
    /\ step s1 (Response (length (inflight session_far))
                  (Rejected (HttpError 400 "invalid_grant"))) = Some s2
    /\ logged_out s2 /\ store_empty s2
    /\ posted s2 = posted session_far
                     ++ [refresh_request "r0"; refresh_request "r0"].
Proof.
  apply (second_renewal_rejected session_far "r0" token_far "r1"
           (HttpError 400 "invalid_grant"));
    [reflexivity | reflexivity | reflexivity | discriminate].
Defined.

(** *** What is typed into the form *)

Lemma step_keeps_typed (s s' : state) (e : event) :
  step s e = Some s' -> is_typing e = false ->
  username s' = username s /\ password s' = password s.
Proof.
  intros Hstep Hty. unfold step in Hstep.
  destruct (microtasks s) as [|t rest].
  - destruct e as [v|v| | | |i r|]; try discriminate Hstep; try discriminate Hty.
    + destruct (negb _ && negb _ && negb _ && negb _); [|discriminate Hstep].
      injection Hstep as <-. split; reflexivity.
    + destruct (isAuthenticated s); [|discriminate Hstep].
      injection Hstep as <-. cbn [keycloak kc_updateToken]. unfold updateToken.
      destruct (negb _); split; reflexivity.
    + destruct (isAuthenticated s); [|discriminate Hstep].
      injection Hstep as <-. split; reflexivity.
    + destruct (inflight s !! i) as [[req k]|]; [|discriminate Hstep].
      injection Hstep as <-. destruct k, r; split; reflexivity.
  - destruct e; try discriminate Hstep. injection Hstep as <-.
    destruct t as [[|]]; split; reflexivity.
Qed.

(** The user name and the password typed into the form stay in the
    state of the component until the user types others: no login, granted
    or rejected, no renewal and no logout clears them. *)
Theorem typed_credentials_are_kept (es : list event) (s s' : state)
    (Hrun : run s es = Some s')
    (Hquiet : forallb (fun e => negb (is_typing e)) es = true) :
  username s' = username s /\ password s' = password s.
Proof.
  revert s Hrun. induction es as [|e es IH]; intros s Hrun; cbn in Hrun.
  - injection Hrun as <-. split; reflexivity.
  - cbn in Hquiet. apply andb_prop in Hquiet as [He Hes].
    destruct (step s e) as [s1|] eqn:Hstep; [|discriminate Hrun].
    destruct (step_keeps_typed s s1 e Hstep) as [Hu Hp].
    { destruct (is_typing e); [discriminate He | reflexivity]. }
    destruct (IH Hes s1 Hrun) as [Hu' Hp']. split; congruence.
Qed.

Lemma typed_credentials_are_kept_witness :
  exists s', run awaiting_login
               [Response 0 (Fulfilled token_far "r0"); Click_logout] = Some s'
    /\ isAuthenticated s' = false
    /\ username s' = "alice" /\ password s' = "secret".
Proof.
  eexists. split; [vm_compute; reflexivity|]. split; [reflexivity|].
  apply (typed_credentials_are_kept
           [Response 0 (Fulfilled token_far "r0"); Click_logout] awaiting_login);
    reflexivity.
Defined.

(** ** Properties of the page [App] *)

(** *** trim and includes *)

Section Trim.

Import Text.

Lemma trimStart_idempotent (l : list ascii) :
  trimStart (trimStart l) = trimStart l.
Proof.
  induction l as [|c l IH]; [reflexivity|]. cbn.
  destruct (is_space c) eqn:Hc; [exact IH|]. cbn. rewrite Hc. reflexivity.
Qed.

Lemma trimStart_suffix (l : list ascii) : exists p, l = p ++ trimStart l.
Proof.
  induction l as [|c l [p IH]]; [exists []; reflexivity|]. cbn.
  destruct (is_space c).
  - exists (c :: p). cbn. rewrite <- IH. reflexivity.
  - exists []. reflexivity.
Qed.

Lemma trimStart_prefix_stable (y z : list ascii) :
  y <> [] -> trimStart (y ++ z) = y ++ z -> trimStart y = y.
Proof.
  destruct y as [|c y]; [congruence|]. intros _. cbn.
  destruct (is_space c); [|reflexivity].
  intros H. destruct (trimStart_suffix (y ++ z)) as [p Hp].
  apply (f_equal (@length ascii)) in H.
  apply (f_equal (@length ascii)) in Hp.
  rewrite length_app in Hp. cbn in H. rewrite length_app in *. lia.
Qed.

Lemma chars_of_chars (l : list ascii) : JS.chars (JS.of_chars l) = l.
Proof. apply list_ascii_of_string_of_list_ascii. Qed.

Lemma of_chars_chars (s : string) : JS.of_chars (JS.chars s) = s.
Proof. apply string_of_list_ascii_of_string. Qed.

(** Trimming twice is trimming once: a trimmed string has no white space
    left at either end. *)
Lemma trim_idempotent (s : string) : trim (trim s) = trim s.
Proof.
  unfold trim. rewrite chars_of_chars.
  set (d := trimStart (JS.chars s)).
  set (e := trimStart (rev d)).
  assert (trimStart (rev e) = rev e) as Hhead.
  { destruct e as [|c e'] eqn:He; [reflexivity|].
    destruct (trimStart_suffix (rev d)) as [p Hp]. fold e in Hp. rewrite He in Hp.
    apply (trimStart_prefix_stable (rev (c :: e')) (rev p)).
    - intros H. apply (f_equal (@rev ascii)) in H. rewrite rev_involutive in H.
      discriminate H.
    - rewrite <- rev_app_distr, <- Hp, rev_involutive.
      apply trimStart_idempotent. }
  rewrite Hhead, rev_involutive. unfold e at 1. rewrite trimStart_idempotent.
  reflexivity.
Qed.

(** A needle none of whose characters is [q] cannot begin before a [q]
    and end after it. *)
Lemma prefix_before (q : ascii) (needle : string) :
  forallb (fun c => negb (Ascii.eqb c q)) (JS.chars needle) = true ->
  forall (n rest : string),
    String.prefix needle (n ++ String q rest)%string = String.prefix needle n.
Proof.
  induction needle as [|a nd IH]; intros Hq n rest.
  - destruct n; reflexivity.
  - cbn in Hq. apply andb_prop in Hq as [Ha Hnd].
    destruct n as [|b n]; simpl.
    + destruct (ascii_dec a q) as [->|_]; [|reflexivity].
      rewrite Ascii.eqb_refl in Ha. discriminate Ha.
    + destruct (ascii_dec a b); [apply (IH Hnd)|reflexivity].
Qed.

Lemma includes_before (q : ascii) (needle rest : string) :
  needle <> ""%string ->
  forallb (fun c => negb (Ascii.eqb c q)) (JS.chars needle) = true ->
  includes needle (String q rest) = false ->
  forall n : string,
    includes needle (n ++ String q rest)%string = includes needle n.
Proof.
  intros Hne Hq Hrest n. induction n as [|b n IH].
  - change ("" ++ String q rest)%string with (String q rest).
    rewrite Hrest. destruct needle; [congruence|reflexivity].
  - change (String b n ++ String q rest)%string
      with (String b (n ++ String q rest)%string).
    cbn [includes].
    change (String b (n ++ String q rest)%string)
      with (String b n ++ String q rest)%string.
    rewrite (prefix_before q needle Hq (String b n) rest), IH. reflexivity.
Qed.

End Trim.

(** *** Uploading *)

Section Upload.

Import Text App.

Lemma eqb_false_neq (a b : string) : String.eqb a b = false -> a <> b.
Proof. intros H ->. rewrite String.eqb_refl in H. discriminate H. Qed.

Lemma fetchFiles_resume_form (r : response) (s : state) :
  selectedFile (fetchFiles_resume r s) = selectedFile s
  /\ customFileName (fetchFiles_resume r s) = customFileName s
  /\ fileDescription (fetchFiles_resume r s) = fileDescription s
  /\ inflight (fetchFiles_resume r s) = inflight s
  /\ loading (fetchFiles_resume r s) = false.
Proof.
  destruct r as [data|err]; [destruct (prop "files" data) eqn:Hp|];
    unfold fetchFiles_resume; rewrite ?Hp; repeat split.
Qed.

(** When the Upload button is enabled, a click sends one request whose
    form holds the file picked, the course title and the description,
    the two texts trimmed and not empty, and the button is disabled by
    that click.  It does not stay disabled until the upload is answered:
    [loading] is shared with [fetchFiles], so the answer, of any kind, to
    a request for the list of files that was in flight enables the button
    again while the upload is still in flight, and a second click then
    sends the same file a second time. *)
Theorem upload_sends_trimmed_fields (token : option string) (s : state)
    (Henabled : upload_disabled s = false) :
  exists f, selectedFile s = Some f
    /\ inflight (handleUpload token s)
         = inflight s
             ++ [(PostUpload
                    [ ("file", FilePart f);
                      ("custom_filename", TextPart (trim (customFileName s)));
                      ("description", TextPart (trim (fileDescription s))) ]
                    (bearer token),
                  KUpload f token)]
    /\ trim (customFileName s) <> "" /\ trim (fileDescription s) <> ""
    /\ trim (trim (customFileName s)) = trim (customFileName s)
    /\ trim (trim (fileDescription s)) = trim (fileDescription s)
    /\ upload_disabled (handleUpload token s) = true
    /\ forall (i : nat) (req : request) (r : response),
         inflight s !! i = Some (req, KFiles) ->
         exists s1, deliver i r (handleUpload token s) = Some s1
           /\ upload_disabled s1 = false
           /\ inflight (handleUpload token s1)
                = delete i (inflight s)
                    ++ [(PostUpload (form_of f s) (bearer token), KUpload f token);
                        (PostUpload (form_of f s) (bearer token), KUpload f token)].
Proof.
  pose proof Henabled as Hen.
  unfold upload_disabled in Henabled.
  destruct (selectedFile s) as [f|] eqn:Hf; [|discriminate Henabled].
  destruct (loading s) eqn:Hl; [discriminate Henabled|]. cbn [orb] in Henabled.
  destruct (String.eqb (trim (customFileName s)) "") eqn:Hn;
    [discriminate Henabled|].
  destruct (String.eqb (trim (fileDescription s)) "") eqn:Hd;
    [discriminate Henabled|].
  exists f. split; [reflexivity|].
  assert (inflight (handleUpload token s)
            = inflight s
                ++ [(PostUpload (form_of f s) (bearer token), KUpload f token)])
    as Hsent.
  { unfold handleUpload. rewrite Hf. reflexivity. }
  split.
  { rewrite Hsent. unfold form_of, text_part. rewrite Hn, Hd. reflexivity. }
  split; [exact (eqb_false_neq _ _ Hn)|].
  split; [exact (eqb_false_neq _ _ Hd)|].
  split; [apply trim_idempotent|]. split; [apply trim_idempotent|].
  split.
  { unfold handleUpload, upload_disabled; rewrite Hf; cbn. rewrite Hf.
    reflexivity. }
  intros i req r Hi.
  assert (i < length (inflight s))%nat as Hlt
    by (apply lookup_lt_Some in Hi; exact Hi).
  assert (delete i (inflight s ++ [(PostUpload (form_of f s) (bearer token),
                                     KUpload f token)])
            = delete i (inflight s)
                ++ [(PostUpload (form_of f s) (bearer token), KUpload f token)])
    as Hdel.
  { clear -Hlt. revert i Hlt.
    induction (inflight s) as [|x l IH]; intros i Hlt; [cbn in Hlt; lia|].
    destruct i as [|i]; [reflexivity|].
    cbn. f_equal. apply IH. cbn in Hlt. lia. }
  unfold deliver. rewrite Hsent, lookup_app_l, Hi by exact Hlt.
  eexists. split; [reflexivity|].
  rewrite Hdel.
  match goal with
  | |- context [fetchFiles_resume r ?s0] =>
      destruct (fetchFiles_resume_form r s0)
        as (Hsel & Hname & Hdesc & Hin & Hload);
      set (s1 := fetchFiles_resume r s0) in *
  end.
  cbn [selectedFile customFileName fileDescription inflight]
    in Hsel, Hname, Hdesc, Hin.
  assert (selectedFile (handleUpload token s) = Some f) as Hf'.
  { unfold handleUpload. rewrite Hf. exact Hf. }
  assert (customFileName (handleUpload token s) = customFileName s) as Hn'.
  { unfold handleUpload. rewrite Hf. reflexivity. }
  assert (fileDescription (handleUpload token s) = fileDescription s) as Hd'.
  { unfold handleUpload. rewrite Hf. reflexivity. }
  rewrite Hf' in Hsel. rewrite Hn' in Hname. rewrite Hd' in Hdesc.
  clearbody s1.
  split.
  { unfold upload_disabled. rewrite Hsel, Hload, Hname, Hdesc, Hn, Hd.
    reflexivity. }
  unfold handleUpload. rewrite Hsel.
  unfold seq, send, setLoading; cbn [fold_left inflight].
  rewrite Hin. unfold form_of. cbn [customFileName fileDescription].
  rewrite Hname, Hdesc, <- app_assoc. reflexivity.
Qed.

Lemma upload_sends_trimmed_fields_witness :
  exists f, App.selectedFile form_refilled = Some f
    /\ App.inflight (App.handleUpload (Some token_far) form_refilled)
         = [(GetFiles (bearer (Some token_far)), KFiles);
            (PostUpload
               [ ("file", FilePart f);
                 ("custom_filename", TextPart "Algebra");
                 ("description", TextPart "First lecture") ]
               (bearer (Some token_far)),
             KUpload f (Some token_far))]
    /\ exists s1,
         deliver 0 (Fulfilled (JS.JObject []))
                 (App.handleUpload (Some token_far) form_refilled) = Some s1
         /\ upload_disabled s1 = false
         /\ length (App.inflight (App.handleUpload (Some token_far) s1)) = 2%nat.
Proof.
  destruct (upload_sends_trimmed_fields (Some token_far) form_refilled)
    as (f & Hf & Hin & _ & _ & _ & _ & _ & Hagain); [reflexivity|].
  exists f. split; [exact Hf|]. split; [exact Hin|].
  destruct (Hagain 0%nat (GetFiles (bearer (Some token_far)))
              (Fulfilled (JS.JObject [])))
    as (s1 & Hd & Hen & Htwice); [reflexivity|].
  exists s1. split; [exact Hd|]. split; [exact Hen|].
  rewrite Htwice. reflexivity.
Defined.

(** A granted upload: the status names the file, the form is emptied,
    and the list of files is fetched again, with the token the page had
    when Upload was clicked.  The [finally] of the upload runs after that
    fetch has set [loading], so the fetch is in flight with [loading]
    false: no spinner is shown and the Refresh List button is enabled
    meanwhile. *)
Theorem granted_upload (s : state) (i : nat) (req : request) (f : File)
    (token : option string) (data : JS.json)
    (Hin : inflight s !! i = Some (req, KUpload f token)) :
  exists s', deliver i (Fulfilled data) s = Some s'
    /\ uploadStatus s' = success_message f
    /\ selectedFile s' = None
    /\ customFileName s' = "" /\ fileDescription s' = ""
    /\ inflight s' = delete i (inflight s) ++ [(GetFiles (bearer token), KFiles)]
    /\ loading s' = false
    /\ refresh_disabled s' = false
    /\ upload_disabled s' = true
    /\ fileList s' = fileList s /\ error s' = error s.
Proof.
  unfold deliver. rewrite Hin. eexists. split; [reflexivity|].
  repeat split.
Qed.

Lemma granted_upload_witness :
  exists s', deliver 0 (Fulfilled JS.JNull) uploading = Some s'
    /\ uploadStatus s' = success_message lecture
    /\ inflight s' = [(GetFiles (bearer (Some token_far)), KFiles)]
    /\ loading s' = false.
Proof.
  destruct (granted_upload uploading 0
              (PostUpload (form_of lecture form_filled) (bearer (Some token_far)))
              lecture (Some token_far) JS.JNull)
    as (s' & Hd & Hs & _ & _ & _ & Hi & Hl & _); [reflexivity|].
  exists s'. split; [exact Hd|]. split; [exact Hs|]. split; [exact Hi | exact Hl].
Defined.

(** A click on the enabled Upload button followed by a rejection leaves
    the page as it was before the click but for the status: the file and
    the two texts stay in the form, nothing is in flight that was not,
    the button is enabled again, and the status box is red. *)
Theorem rejected_upload (token : option string) (s : state)
    (err : axios_error)
    (Henabled : upload_disabled s = false) :
  deliver (length (inflight s)) (Rejected err) (handleUpload token s)
    = Some (setUploadStatus (failure_message err) s)
  /\ upload_disabled (setUploadStatus (failure_message err) s) = false
  /\ status_alert (setUploadStatus (failure_message err) s) = AlertDanger.
Proof.
  split; [|split; [exact Henabled | reflexivity]].
  unfold upload_disabled in Henabled.
  destruct s as [sel st fl ld er cn fd tab role infl]; cbn in Henabled.
  destruct sel as [f|]; [|discriminate Henabled].
  destruct ld; [discriminate Henabled|].
  unfold handleUpload, deliver, seq, send, setLoading;
    cbn [selectedFile fold_left inflight uploadStatus fileList loading error
         customFileName fileDescription activeTab userRole].
  rewrite list_lookup_middle by reflexivity.
  rewrite delete_middle, app_nil_r. reflexivity.
Qed.

Lemma rejected_upload_witness :
  deliver 0 (Rejected {| response_error := Some "File too large";
                         message := "Request failed with status code 413" |})
          uploading
    = Some (setUploadStatus "Error uploading file: File too large" form_filled).
Proof.
  exact (proj1 (rejected_upload (Some token_far) form_filled
                  {| response_error := Some "File too large";
                     message := "Request failed with status code 413" |}
                  eq_refl)).
Defined.

Lemma includes_success_message (f : File) :
  includes "Error" (success_message f) = includes "Error" (name f).
Proof.
  unfold success_message, dq.
  change ("File " ++ String "034" "" ++ name f
            ++ String "034" "" ++ " uploaded successfully!")%string
    with (String "F" (String "i" (String "l" (String "e" (String " "
           (String "034" (name f ++ String "034" " uploaded successfully!")))))))%string.
  cbn [includes String.prefix].
  repeat match goal with
         | |- context [ascii_dec ?a ?b] =>
             let d := eval vm_compute in (if ascii_dec a b then true else false) in
             match d with
             | false => destruct (ascii_dec a b) as [Heq|_]; [discriminate Heq|]
             end
         end.
  apply includes_before; [discriminate | reflexivity | vm_compute; reflexivity].
Qed.

(** The colour of the status box depends only on whether the status has
    the word Error in it.  After a rejected upload the box is red.  After
    a granted upload it is green, unless the name of the file has the
    word Error in it: then the success is shown in red.  And the hint
    that no file was picked is shown in green. *)
Theorem status_colour (s : state) (f : File) (err : axios_error)
    (token : option string) :
  status_alert (setUploadStatus (failure_message err) s) = AlertDanger
  /\ status_alert (setUploadStatus (success_message f) s)
       = (if includes "Error" (name f) then AlertDanger else AlertSuccess)
  /\ status_alert (handleUpload token (setSelectedFile None s)) = AlertSuccess.
Proof.
  split; [reflexivity|]. split; [|reflexivity].
  unfold status_alert. cbn [uploadStatus setUploadStatus].
  rewrite includes_success_message. reflexivity.
Qed.

(** The answer to the request for the list of files.  A body with a
    usable [files] member becomes the list; a body without one, or with
    one that is [null], [false], 0 or the empty string, gives the empty
    list; both clear the error.  A [null] body is reported with the
    message of a failed request, like a rejection, and keeps the list.
    In every case [loading] ends false and the upload form is untouched. *)
Theorem files_answer (s : state) (i : nat) (req : request) (r : response)
    (Hin : inflight s !! i = Some (req, KFiles)) :
  exists s', deliver i r s = Some s'
    /\ loading s' = false
    /\ inflight s' = delete i (inflight s)
    /\ selectedFile s' = selectedFile s /\ uploadStatus s' = uploadStatus s
    /\ customFileName s' = customFileName s
    /\ fileDescription s' = fileDescription s
    /\ match r with
       | Fulfilled JS.JNull | Rejected _ =>
           error s' = files_error /\ fileList s' = fileList s
       | Fulfilled (JS.JObject ms) =>
           error s' = ""
           /\ fileList s'
                = match JS.lookup_member (JS.units "files") ms with
                  | Some v => if truthy v then v else JS.JArray []
                  | None => JS.JArray []
                  end
       | Fulfilled _ => error s' = "" /\ fileList s' = JS.JArray []
       end.
Proof.
  unfold deliver. rewrite Hin. eexists. split; [reflexivity|].
  destruct r as [data|err]; [destruct data|]; repeat split.
Qed.

Lemma files_answer_witness :
  exists s', deliver 0 (Fulfilled (JS.JObject [])) (fetchFiles None init) = Some s'
    /\ loading s' = false /\ error s' = "" /\ fileList s' = JS.JArray [].
Proof.
  destruct (files_answer (fetchFiles None init) 0 (GetFiles (bearer None))
              (Fulfilled (JS.JObject [])))
    as (s' & Hd & Hl & _ & _ & _ & _ & _ & He & Hf); [reflexivity|].
  exists s'. split; [exact Hd|]. split; [exact Hl|]. split; [exact He | exact Hf].
Defined.

End Upload.

(** ** Properties of the start-up script of the database *)

Section Mount.

(** When the provider renders its children, the page asks for the list of
    files and for the role of the user at once, both with the stored
    access token as the bearer credential, and shows the list as loading. *)
Theorem first_requests_carry_stored_token (s : state)
    (Hreach : reachable s)
    (Hauth : isAuthenticated s = true) :
  exists t, getItem "token" s = Some t
    /\ App.inflight (App.mount (kc_authenticated (keycloak s))
                               (kc_token (keycloak s)) App.init)
         = [ (App.GetFiles ("Bearer " ++ t)%string, App.KFiles);
             (App.GetUserRole ("Bearer " ++ t)%string, App.KUserRole) ]
    /\ App.loading (App.mount (kc_authenticated (keycloak s))
                              (kc_token (keycloak s)) App.init) = true.
Proof.
  destruct Hreach as (ls & now & es & Hrun).
  assert (session_invariant s) as [Hp Ha].
  { apply (effect_session_invariant (init ls) s (reachable_effect ls now es s Hrun)).
    split; [intros t Ht; discriminate Ht | intros Hf; discriminate Hf]. }
  cbn [kc_authenticated kc_token keycloak]. rewrite Hauth.
  destruct (token s) as [t|] eqn:Ht; [|destruct (Ha Hauth eq_refl)].
  exists t. split; [exact (Hp t Ht)|]. split; reflexivity.
Qed.

End Mount.

Lemma first_requests_carry_stored_token_witness :
  exists t, getItem "token" session_expiring = Some t
    /\ App.inflight (App.mount true (Some t) App.init)
         = [ (App.GetFiles ("Bearer " ++ t)%string, App.KFiles);
             (App.GetUserRole ("Bearer " ++ t)%string, App.KUserRole) ].
Proof.
  destruct (first_requests_carry_stored_token session_expiring)
    as (t & Hs & Hi & _).
  - exists (stored_session token_3600 "r0"), 3595000, []. reflexivity.
  - reflexivity.
  - exists t. split; [exact Hs|].
    assert (token session_expiring = Some t) as Ht.
    { vm_compute in Hs. vm_compute. exact Hs. }
    cbn [kc_authenticated kc_token keycloak] in Hi. rewrite Ht in Hi.
    exact Hi.
Defined.

Section Init_script.

Import InitSh.

Variable w : world.

Lemma probes_cons_probe ok l : probes (Cqlsh DescribeKeyspaces ok :: l) = S (probes l).
Proof. reflexivity. Qed.

(** The loop, from any value of [ATTEMPT]: either every probe left
    fails, or it stops at the first that succeeds. *)
Lemma wait_spec (remaining : nat) : forall ATTEMPT : nat,
  (snd (wait w remaining ATTEMPT) = (ATTEMPT + remaining)%nat
   /\ (forall n, (ATTEMPT <= n < ATTEMPT + remaining)%nat -> up w n = false)
   /\ probes (fst (wait w remaining ATTEMPT)) = remaining
   /\ slept (fst (wait w remaining ATTEMPT)) = (10 * remaining)%nat
   /\ created (fst (wait w remaining ATTEMPT)) = [])
  \/ (exists k, (ATTEMPT <= k < ATTEMPT + remaining)%nat
        /\ snd (wait w remaining ATTEMPT) = k
        /\ up w k = true
        /\ (forall n, (ATTEMPT <= n < k)%nat -> up w n = false)
        /\ probes (fst (wait w remaining ATTEMPT)) = S (k - ATTEMPT)
        /\ slept (fst (wait w remaining ATTEMPT)) = (10 * (k - ATTEMPT))%nat
        /\ created (fst (wait w remaining ATTEMPT)) = []).
Proof.
  induction remaining as [|rem IH]; intros a.
  - left. cbn. repeat split; intros; lia.
  - cbn [wait]. destruct (up w a) eqn:Hup.
    + right. exists a. cbn. rewrite Nat.sub_diag.
      repeat split; try assumption; intros; lia.
    + destruct (wait w rem (S a)) as [rest final] eqn:Hw.
      specialize (IH (S a)). rewrite Hw in IH. cbn [fst snd] in *.
      destruct IH as [(Hf & Hall & Hp & Hs & Hc)
                     |(k & Hk & Hf & Hupk & Hall & Hp & Hs & Hc)].
      * left. rewrite probes_cons_probe. cbn [slept created].
        change (probes (Echo (unavailable (S a)) :: Sleep 10 :: rest))
          with (probes rest).
        repeat split; try lia; try assumption.
        intros n Hn. destruct (Nat.eq_dec n a) as [->|Hne]; [exact Hup|].
        apply Hall. lia.
      * right. exists k. rewrite probes_cons_probe. cbn [slept created].
        change (probes (Echo (unavailable (S a)) :: Sleep 10 :: rest))
          with (probes rest).
        repeat split; try lia; try assumption.
        intros n Hn. destruct (Nat.eq_dec n a) as [->|Hne]; [exact Hup|].
        apply Hall. lia.
Qed.

Lemma probes_app (l1 l2 : list action) :
  probes (l1 ++ l2) = (probes l1 + probes l2)%nat.
Proof. unfold probes. rewrite List.filter_app, length_app. reflexivity. Qed.

Lemma slept_app (l1 l2 : list action) :
  slept (l1 ++ l2) = (slept l1 + slept l2)%nat.
Proof.
  induction l1 as [|a l1 IH]; [reflexivity|].
  destruct a; cbn; rewrite IH; lia.
Qed.

Lemma created_app (l1 l2 : list action) :
  created (l1 ++ l2) = created l1 ++ created l2.
Proof.
  induction l1 as [|a l1 IH]; [reflexivity|].
  destruct a as [line|[| |] ok|n]; cbn; rewrite IH; reflexivity.
Qed.

(** The script waits for the database through at most thirty probes.
    If all thirty fail it has slept 300 seconds, runs none of the two
    creating statements and exits with status 1.  Otherwise it stops
    probing at the first probe that succeeds, the one with [ATTEMPT]
    equal to some [k] below thirty, after [k] sleeps of ten seconds, runs
    the two creating statements once each, the keyspace first, and exits
    with status 0. *)
Theorem script_waits_thirty_probes :
  (snd (script w) = 1%nat
   /\ (forall n, (n < MAX_ATTEMPTS)%nat -> up w n = false)
   /\ probes (fst (script w)) = 30%nat
   /\ slept (fst (script w)) = 300%nat
   /\ created (fst (script w)) = [])
  \/ (snd (script w) = 0%nat
      /\ exists k, (k < MAX_ATTEMPTS)%nat
           /\ up w k = true
           /\ (forall n, (n < k)%nat -> up w n = false)
           /\ probes (fst (script w)) = S k
           /\ slept (fst (script w)) = (10 * k)%nat
           /\ created (fst (script w)) = [CreateKeyspace; CreateTables]).
Proof.
  unfold script.
  destruct (wait_spec MAX_ATTEMPTS 0)
    as [(Hf & Hall & Hp & Hs & Hc)|(k & Hk & Hf & Hup & Hall & Hp & Hs & Hc)];
    destruct (wait w MAX_ATTEMPTS 0) as [waited final]; cbn [fst snd] in *.
  - left. cbn [Nat.add] in Hf. subst final.
    rewrite Nat.eqb_refl. cbn [fst snd].
    change (Echo "Waiting for Cassandra to be ready..." :: waited)
      with ([Echo "Waiting for Cassandra to be ready..."] ++ waited).
    rewrite !probes_app, !slept_app, !created_app, Hp, Hs, Hc.
    repeat split. intros n Hn. apply Hall. lia.
  - right. subst final.
    destruct (Nat.eqb_spec k MAX_ATTEMPTS) as [Heq|_]; [lia|]. cbn [fst snd].
    split; [reflexivity|]. exists k.
    change (Echo "Waiting for Cassandra to be ready..." :: waited)
      with ([Echo "Waiting for Cassandra to be ready..."] ++ waited).
    rewrite !probes_app, !slept_app, !created_app, Hp, Hs, Hc, Nat.sub_0_r.
    cbn. repeat split; try assumption; try lia.
    intros n Hn. apply Hall. lia.
Qed.

(** Once a probe has succeeded the script reports success whatever the
    two creating statements do: the tables are created even if the
    keyspace could not be, the last line printed says the initialization
    completed successfully, and the exit status is 0. *)
Theorem failed_statements_are_not_reported (k : nat)
    (Hk : (k < MAX_ATTEMPTS)%nat)
    (Hup : up w k = true) :
  snd (script w) = 0%nat
  /\ exists before,
       fst (script w)
         = before ++ [ Cqlsh CreateKeyspace (keyspace_ok w);
                       Cqlsh CreateTables (tables_ok w);
                       Echo "Database initialization completed successfully" ].
Proof.
  unfold script.
  destruct (wait_spec MAX_ATTEMPTS 0)
    as [(Hf & Hall & _)|(j & Hj & Hf & _)];
    destruct (wait w MAX_ATTEMPTS 0) as [waited final]; cbn [fst snd] in *.
  - rewrite (Hall k) in Hup by lia. discriminate Hup.
  - subst final. destruct (Nat.eqb_spec j MAX_ATTEMPTS) as [Heq|_]; [lia|].
    cbn [fst snd]. split; [reflexivity|]. eexists. reflexivity.
Qed.

End Init_script.

Lemma failed_statements_are_not_reported_witness :
  snd (InitSh.script slow_database) = 0%nat
  /\ exists before,
       fst (InitSh.script slow_database)
         = before ++ [ InitSh.Cqlsh InitSh.CreateKeyspace false;
                       InitSh.Cqlsh InitSh.CreateTables false;
                       InitSh.Echo "Database initialization completed successfully" ].
Proof.
  apply (failed_statements_are_not_reported slow_database 2);
    [unfold InitSh.MAX_ATTEMPTS; lia | reflexivity].
Defined.
